(** * Handler matching of the bot framework: command, prefix, inline-query
    and inline-action handlers.

    The handlers of [telegram/ext/commandhandler.py],
    [telegram/ext/inlinequeryhandler.py] and
    [telegram/flow/inlineactionhandler.py] are embedded as Rocq functions,
    one module per class, with the names of the source.

    - Python exceptions are explicit: a computation returns [Ret v] or
      [Raise e], and [x <- m ;; k] sequences two computations.
    - Python values that are passed around untyped (the result of
      [check_update], of a filter, the payload of a session record) are
      elements of one type [Val.value].
    - Text is modelled on the code points below 256 of Python 3's [str]: a
      character is an [ascii], read as that code point, and the case and
      white-space tables are the ones Python uses on that range.  The
      check of the command names in [CommandHandler.__init__] depends on
      what lies beyond that range, and is also embedded on texts of
      arbitrary code points, in [Unicode].
    - A regular expression is held as a parsed pattern and matched by a
      backtracking matcher that follows [re].
    - What the sources import but do not contain (the filters, the session
      registry, the context, the dispatch step) is a parameter, or is
      modelled from the specification where the definition says so.

    The definitions come first; the properties of the handlers follow. *)

From Stdlib Require Import String Ascii List ZArith NArith Bool Lia.
Import ListNotations.

Local Open Scope list_scope.

(** ** The Python fragment the handlers rely on *)

Module Py.

(** Exceptions the modelled code can raise. *)
Inductive exn : Type :=
| TypeError
| IndexError
| AttributeError
| KeyError
| ValueError (msg : string).

Inductive result (A : Type) : Type :=
| Ret (a : A)
| Raise (e : exn).
Arguments Ret {A} a.
Arguments Raise {A} e.

Definition bind {A B : Type} (m : result A) (k : A -> result B) : result B :=
  match m with
  | Ret a => k a
  | Raise e => Raise e
  end.

Definition code (c : ascii) : N := N_of_ascii c.

(** [str.isspace] on one character, code points below 256. *)
Definition isspace (c : ascii) : bool :=
  let n := code c in
  ((9 <=? n) && (n <=? 13) || (28 <=? n) && (n <=? 32)
   || (n =? 133) || (n =? 160))%N.

(** [str.lower] on one character, code points below 256. *)
Definition lower_char (c : ascii) : ascii :=
  let n := code c in
  if ((65 <=? n) && (n <=? 90)
      || (192 <=? n) && (n <=? 222) && negb (n =? 215))%N
  then ascii_of_N (n + 32)
  else c.

(** [s.lower()] *)
Fixpoint lower (s : string) : string :=
  match s with
  | EmptyString => EmptyString
  | String c s' => String (lower_char c) (lower s')
  end.

(** Truth value of a [str]. *)
Definition truthy_str (s : string) : bool :=
  match s with
  | EmptyString => false
  | String _ _ => true
  end.

(** [x in l] for a list of strings. *)
Definition str_in (x : string) (l : list string) : bool :=
  existsb (String.eqb x) l.

(** What a finished token adds to the result of [split]: nothing when it
    is empty. *)
Definition flush (tok : string) : list string :=
  match tok with
  | EmptyString => []
  | String _ _ => [tok]
  end.

(** The scan of [s.split()]: [tok] is the token read so far. *)
Fixpoint split_loop (tok s : string) : list string :=
  match s with
  | EmptyString => flush tok
  | String c s' =>
      if isspace c then flush tok ++ split_loop EmptyString s'
      else split_loop (tok ++ String c EmptyString)%string s'
  end.

(** [s.split()] *)
Definition split (s : string) : list string := split_loop EmptyString s.

(** The scan of [s.split(sep)] for a one-character separator. *)
Fixpoint split_on_loop (sep : ascii) (tok s : string) : list string :=
  match s with
  | EmptyString => [tok]
  | String c s' =>
      if Ascii.eqb c sep then tok :: split_on_loop sep EmptyString s'
      else split_on_loop sep (tok ++ String c EmptyString)%string s'
  end.

(** [s.split(sep)] *)
Definition split_on (sep : ascii) (s : string) : list string :=
  split_on_loop sep EmptyString s.

(** A slice bound brought into [0, len], as Python does. *)
Definition clamp (len i : Z) : Z :=
  if (i <? 0)%Z then Z.max (i + len) 0 else Z.min i len.

(** [s[start:stop]] *)
Definition slice (s : string) (start stop : Z) : string :=
  let len := Z.of_nat (String.length s) in
  let i := clamp len start in
  let j := clamp len stop in
  substring (Z.to_nat i) (Z.to_nat (j - i)) s.

(** [l[1:]] *)
Definition tail_from_1 {A : Type} (l : list A) : list A := skipn 1 l.

(** [l[n]] for [0 <= n] *)
Definition item {A : Type} (n : nat) (l : list A) : result A :=
  match nth_error l n with
  | Some x => Ret x
  | None => Raise IndexError
  end.

End Py.

Notation "x <- m ;; k" := (Py.bind m (fun x => k))
  (at level 61, m at next level, right associativity).

(** ** The regular expressions of [re], as parsed patterns

  The pattern text is parsed by Python's [re] module; the handlers hold
  the parsed pattern.  The matcher is the backtracking one of [re]:
  greedy repetition, alternatives tried left to right, [^] at the start
  of the text, [$] at its end or just before a final newline. *)

Module Re.

Inductive regex : Type :=
| Eps
| Bol
| Eol
| Lit (c : ascii)
| Cls (p : ascii -> bool)
| Seq (r1 r2 : regex)
| Alt (r1 r2 : regex)
| Rep (r : regex) (lo hi : nat).

(** A match object: the searched text and the span of the match. *)
Record Match : Type := mkMatch {
  m_string : string;
  m_start : nat;
  m_end : nat
}.

Definition newline : ascii := ascii_of_N 10.

(** Where [$] matches: at the end, or before a newline that ends the text. *)
Definition at_eol (rest : string) : bool :=
  match rest with
  | EmptyString => true
  | String c EmptyString => Ascii.eqb c newline
  | String _ (String _ _) => false
  end.

(** One character of the text against a test. *)
Definition step {A : Type} (p : ascii -> bool) (pos : nat) (rest : string)
    (k : nat -> string -> option A) : option A :=
  match rest with
  | EmptyString => None
  | String d rest' => if p d then k (S pos) rest' else None
  end.

(** The loop of a greedy bounded repetition: [body] is tried once more
    while [fuel] iterations remain, and on failure the loop is left,
    provided [lo] iterations were made. *)
Fixpoint rep_loop {A : Type}
    (body : nat -> string -> (nat -> string -> option A) -> option A)
    (lo hi fuel : nat) (pos : nat) (rest : string)
    (k : nat -> string -> option A) {struct fuel} : option A :=
  let more :=
    match fuel with
    | O => None
    | S fuel' =>
        body pos rest (fun pos' rest' => rep_loop body lo hi fuel' pos' rest' k)
    end in
  match more with
  | Some x => Some x
  | None => if Nat.leb lo (hi - fuel) then k pos rest else None
  end.

(** [run r pos rest k]: match [r] at position [pos], where [rest] is the
    text from [pos] on, then continue with [k]; the first success wins. *)
Fixpoint run {A : Type} (r : regex) (pos : nat) (rest : string)
    (k : nat -> string -> option A) {struct r} : option A :=
  match r with
  | Eps => k pos rest
  | Bol => if Nat.eqb pos 0 then k pos rest else None
  | Eol => if at_eol rest then k pos rest else None
  | Lit c => step (fun d => Ascii.eqb d c) pos rest k
  | Cls p => step p pos rest k
  | Seq r1 r2 => run r1 pos rest (fun pos' rest' => run r2 pos' rest' k)
  | Alt r1 r2 =>
      match run r1 pos rest k with
      | Some x => Some x
      | None => run r2 pos rest k
      end
  | Rep r0 lo hi => rep_loop (run r0) lo hi hi pos rest k
  end.

(** A matching step advances: it enters its continuation only further on
    in the text, after a piece [w] of the text that starts where the step
    was applied. *)
Definition advances {A : Type}
    (body : nat -> string -> (nat -> string -> option A) -> option A) : Prop :=
  forall pos rest k x,
    body pos rest k = Some x ->
    exists w rest',
      rest = (w ++ rest')%string /\ k (pos + String.length w) rest' = Some x.

(** The text from position [n] on. *)
Fixpoint drop (n : nat) (s : string) : string :=
  match n, s with
  | O, _ => s
  | S n', String _ s' => drop n' s'
  | S _, EmptyString => EmptyString
  end.

(** A match of [r] that starts exactly at position [start] of [s]. *)
Definition match_at (r : regex) (s : string) (start : nat) : option Match :=
  run r start (drop start s) (fun e _ => Some (mkMatch s start e)).

(** [re.match(r, s)] *)
Definition re_match (r : regex) (s : string) : option Match :=
  match_at r s 0.

(** The scan of [re.search]: the first position, from [start] on, at which
    a match begins. *)
Fixpoint search_from (r : regex) (s : string) (fuel start : nat)
    : option Match :=
  match match_at r s start with
  | Some m => Some m
  | None =>
      match fuel with
      | O => None
      | S fuel' => search_from r s fuel' (S start)
      end
  end.

(** [re.search(r, s)] *)
Definition re_search (r : regex) (s : string) : option Match :=
  search_from r s (String.length s) 0.

(** [re.fullmatch(r, s)] *)
Definition re_fullmatch (r : regex) (s : string) : option Match :=
  run r 0 s (fun e rest =>
    match rest with
    | EmptyString => Some (mkMatch s 0 e)
    | String _ _ => None
    end).

(** The literal text [s] as a pattern. *)
Fixpoint lits (s : string) : regex :=
  match s with
  | EmptyString => Eps
  | String c s' => Seq (Lit c) (lits s')
  end.

Definition in_range (lo hi : N) (c : ascii) : bool :=
  ((lo <=? Py.code c) && (Py.code c <=? hi))%N.

(** [\d] on the code points below 256, where the only decimal digits are
    0 to 9.  On the whole of [str] the class is wider: see [Unicode]. *)
Definition digit (c : ascii) : bool := in_range 48 57 c.

End Re.

(** ** Python values that flow through the handlers *)

Module Val.

(** The values a filter, a [check_update] or the session registry hands
    over: [None], booleans, strings, integers, match objects, lists,
    2-tuples and dictionaries. *)
#[warnings="-register-all"]
Inductive value : Type :=
| PyNone
| PyBool (b : bool)
| PyStr (s : string)
| PyInt (z : Z)
| PyMatch (m : Re.Match)
| PyList (l : list value)
| PyTuple (a b : value)
| PyDict (d : list (string * value)).

(** Truth value of a Python value. *)
Definition truthy (v : value) : bool :=
  match v with
  | PyNone => false
  | PyBool b => b
  | PyStr s => Py.truthy_str s
  | PyInt z => negb (z =? 0)%Z
  | PyMatch _ => true
  | PyList l => match l with [] => false | _ :: _ => true end
  | PyTuple _ _ => true
  | PyDict d => match d with [] => false | _ :: _ => true end
  end.

(** A list of strings as a Python list. *)
Definition str_list (l : list string) : value := PyList (map PyStr l).

(** [v[n]] for an index [0 <= n].  A match object answers with its group
    [n]: the matched text for 0, and no other group, since the patterns
    here have none.  The keys of a dictionary are strings, so that no
    integer is one of them. *)
Definition getitem (v : value) (n : nat) : Py.result value :=
  match v with
  | PyList l => Py.item n l
  | PyTuple a b =>
      match n with
      | 0 => Py.Ret a
      | 1 => Py.Ret b
      | _ => Py.Raise Py.IndexError
      end
  | PyStr s =>
      match String.get n s with
      | Some c => Py.Ret (PyStr (String c EmptyString))
      | None => Py.Raise Py.IndexError
      end
  | PyMatch m =>
      match n with
      | 0 =>
          Py.Ret (PyStr (substring (Re.m_start m) (Re.m_end m - Re.m_start m)
                           (Re.m_string m)))
      | _ => Py.Raise Py.IndexError
      end
  | PyDict _ => Py.Raise Py.KeyError
  | PyNone | PyBool _ | PyInt _ => Py.Raise Py.TypeError
  end.

(** The three outcomes of [check_update], in the words of the
    specification. *)
Definition NoMatch : value := PyNone.
Definition Rejected : value := PyBool false.
Definition Matched (args : list string) (filter_result : value) : value :=
  PyTuple (str_list args) filter_result.

End Val.

(** ** The objects of the platform that the handlers read *)

Module Bot.
Record t : Type := mk { username : string }.
End Bot.

Module MessageEntity.
Record t : Type := mk { type : string; offset : Z; length : Z }.
Definition BOT_COMMAND : string := "bot_command".
End MessageEntity.

(** A message; its text and its bot may both be [None]. *)
Module Message.
Record t : Type := mk {
  text : option string;
  entities : list MessageEntity.t;
  bot : option Bot.t
}.
End Message.

Module InlineQuery.
Record t : Type := mk { query : string }.
End InlineQuery.

Module CallbackQuery.
Record t : Type := mk { data : option string }.
End CallbackQuery.

Module Chat.
Record t : Type := mk { id : Z }.
End Chat.

Module Update.
Record t : Type := mk {
  effective_message : option Message.t;
  inline_query : option InlineQuery.t;
  callback_query : option CallbackQuery.t;
  effective_chat : option Chat.t
}.
End Update.

(** What a handler is handed: an [Update], or anything else. *)
Inductive pyobject : Type :=
| AnUpdate (u : Update.t)
| OtherObject.

(** A filter is called on the update and returns a Python value. *)
Definition Filter : Type := Update.t -> Val.value.

Module CallbackContext.

Record t : Type := mk {
  args : option Val.value;
  matches : option Val.value;
  view_model : option Val.value;
  data : list (string * Val.value)
}.

(** A context on which no handler has set anything yet. *)
Definition fresh : t := mk None None None [].

Definition set_args (ctx : t) (v : Val.value) : t :=
  mk (Some v) (matches ctx) (view_model ctx) (data ctx).

Definition set_matches (ctx : t) (v : Val.value) : t :=
  mk (args ctx) (Some v) (view_model ctx) (data ctx).

Definition set_view_model (ctx : t) (v : Val.value) : t :=
  mk (args ctx) (matches ctx) (Some v) (data ctx).

(** Modelled from the spec: [CallbackContext.update] is not among the
    sources.  The specification says that a mapping returned by the
    filters is merged into the context, its keys becoming accessible on
    it; the mapping is kept in [data], newest first. *)
Definition update (ctx : t) (d : list (string * Val.value)) : t :=
  mk (args ctx) (matches ctx) (view_model ctx) (d ++ data ctx).

End CallbackContext.

(** The session registry, [dispatcher.callback_manager]: an injected
    collaborator with two lookups, one by token and one by chat and data. *)
Module CallbackManager.

(** The record bound to a chat and a token. *)
Record Item : Type := mkItem { model_data : Val.value }.

Record t : Type := mk {
  peek_action : string -> option string;
  lookup_chat_bound_callback : Z -> option string -> option Item
}.

End CallbackManager.

(** The dispatcher, as far as the handlers look into it. *)
Module Dispatcher.
Record t : Type := mk { callback_manager : CallbackManager.t }.
End Dispatcher.

(** A user callback: called on the update and the context. *)
Definition Callback : Type :=
  Update.t -> CallbackContext.t -> Py.result Val.value.

(** The command argument of the constructors: one string or a list. *)
Inductive str_or_list : Type :=
| AStr (s : string)
| AList (l : list string).

(** ** [telegram/ext/commandhandler.py] *)

Module CommandHandler.

Import Py Re Val.

Record t : Type := mk {
  callback : Callback;
  command : list string;
  filters : Filter
}.

(** The class [[\da-z_]] of the pattern in [__init__], on the code points
    below 256; [Unicode.CommandHandler.command_char] is the class on the
    whole of [str]. *)
Definition command_char (c : ascii) : bool :=
  digit c || in_range 97 122 c || Ascii.eqb c "_".

(** [r'^[\da-z_]{1,32}$'] *)
Definition command_pattern : regex :=
  Seq Bol (Seq (Rep (Cls command_char) 1 32) Eol).

(** The loop of [__init__] over the lower-cased commands. *)
Fixpoint validate (commands : list string) : result unit :=
  match commands with
  | [] => Ret tt
  | comm :: rest =>
      match re_match command_pattern comm with
      | None => Raise (ValueError "Command is not a valid bot command")
      | Some _ => validate rest
      end
  end.

Section Init.

(** [Filters.update.messages] and the [&] of filters live in
    [telegram.ext.filters], which is not among the sources. *)
Variable Filters_update_messages : Filter.
Variable filter_and : Filter -> Filter -> Filter.

(** [CommandHandler.__init__] *)
Definition init (command : str_or_list) (callback : Callback)
    (filters : option Filter) : result t :=
  let command :=
    match command with
    | AStr s => [lower s]
    | AList l => map lower l
    end in
  _ <- validate command ;;
  Ret (mk callback command
         match filters with
         | Some f => filter_and Filters_update_messages f
         | None => Filters_update_messages
         end).

End Init.

(** [message.text[...]] and [message.text.split()] need a string. *)
Definition text_of (message : Message.t) : result string :=
  match Message.text message with
  | Some s => Ret s
  | None => Raise TypeError
  end.

(** [message.bot.username] needs a bot. *)
Definition bot_of (message : Message.t) : result Bot.t :=
  match Message.bot message with
  | Some b => Ret b
  | None => Raise AttributeError
  end.

(** Lines 110 to 114: the filters decide between a match and a veto. *)
Definition filter_stage (self : t) (u : Update.t) (args : list string)
    : result value :=
  let filter_result := filters self u in
  if truthy filter_result then Ret (PyTuple (str_list args) filter_result)
  else Ret (PyBool false).

(** [CommandHandler.check_update] *)
Definition check_update (self : t) (update : pyobject) : result value :=
  match update with
  | OtherObject => Ret PyNone
  | AnUpdate u =>
      match Update.effective_message u with
      | None => Ret PyNone
      | Some message =>
          match Message.entities message with
          | [] => Ret PyNone
          | e0 :: _ =>
              if String.eqb (MessageEntity.type e0) MessageEntity.BOT_COMMAND
                 && (MessageEntity.offset e0 =? 0)%Z
              then
                text <- text_of message ;;
                let command := slice text 1 (MessageEntity.length e0) in
                let args := tail_from_1 (split text) in
                let command := split_on "@" command in
                bot <- bot_of message ;;
                let command := command ++ [Bot.username bot] in
                c0 <- item 0 command ;;
                c1 <- item 1 command ;;
                if negb (str_in (lower c0) (CommandHandler.command self)
                         && String.eqb (lower c1) (lower (Bot.username bot)))
                then Ret PyNone
                else filter_stage self u args
              else Ret PyNone
          end
      end
  end.

(** [CommandHandler.collect_additional_context] *)
Definition collect_additional_context (self : t) (context : CallbackContext.t)
    (update : Update.t) (dispatcher : Dispatcher.t) (check_result : value)
    : result CallbackContext.t :=
  a <- getitem check_result 0 ;;
  let context := CallbackContext.set_args context a in
  r <- getitem check_result 1 ;;
  match r with
  | PyDict d => Ret (CallbackContext.update context d)
  | _ => Ret context
  end.

End CommandHandler.

Module PrefixHandler.

Import Py Re Val.

(** A [PrefixHandler] is a [CommandHandler] with one more attribute. *)
Record t : Type := mk {
  base : CommandHandler.t;
  prefix : list string
}.

Definition command (self : t) : list string := CommandHandler.command (base self).
Definition filters (self : t) : Filter := CommandHandler.filters (base self).
Definition callback (self : t) : Callback := CommandHandler.callback (base self).

Section Init.

Variable Filters_update_messages : Filter.
Variable filter_and : Filter -> Filter -> Filter.

(** [PrefixHandler.__init__] *)
Definition init (prefix command : str_or_list) (callback : Callback)
    (filters : option Filter) : result t :=
  parent <- CommandHandler.init Filters_update_messages filter_and
              (AStr "nocommand") callback filters ;;
  let prefix :=
    match prefix with
    | AStr s => [lower s]
    | AList l => l
    end in
  let command :=
    match command with
    | AStr s => [lower s]
    | AList l => l
    end in
  let command :=
    flat_map (fun x => map (fun y => (lower x ++ lower y)%string) command)
      prefix in
  Ret (mk (CommandHandler.mk (CommandHandler.callback parent) command
             (CommandHandler.filters parent))
          prefix).

End Init.

(** [PrefixHandler.check_update] *)
Definition check_update (self : t) (update : pyobject) : result value :=
  match update with
  | OtherObject => Ret PyNone
  | AnUpdate u =>
      match Update.effective_message u with
      | None => Ret PyNone
      | Some message =>
          match Message.text message with
          | None => Ret PyNone
          | Some text =>
              if truthy_str text then
                let text_list := split text in
                t0 <- item 0 text_list ;;
                if negb (str_in (lower t0) (command self)) then Ret PyNone
                else
                  let filter_result := filters self u in
                  if truthy filter_result
                  then Ret (PyTuple (str_list (tail_from_1 text_list))
                              filter_result)
                  else Ret (PyBool false)
              else Ret PyNone
          end
      end
  end.

(** [PrefixHandler.collect_additional_context] *)
Definition collect_additional_context (self : t) (context : CallbackContext.t)
    (update : Update.t) (dispatcher : Dispatcher.t) (check_result : value)
    : result CallbackContext.t :=
  a <- getitem check_result 0 ;;
  let context := CallbackContext.set_args context a in
  r <- getitem check_result 1 ;;
  match r with
  | PyDict d => Ret (CallbackContext.update context d)
  | _ => Ret context
  end.

End PrefixHandler.

(** ** [CommandHandler.__init__] on the whole of [str]

    A command handed to the constructor is any Python 3 [str], not only a
    text of code points below 256.  Here a text is a sequence of code
    points of any size, and the two tables of the Unicode database that
    the constructor consults, through [str.lower] and through the class
    [\d] of [re], are given by a record. *)

Module Unicode.

Import Py.

Definition text : Type := list N.

(** The command argument of the constructor: one string or a list. *)
Inductive str_or_list : Type :=
| AStr (s : text)
| AList (l : list text).

(** [lower] is [str.lower]; [is_decimal] tells the decimal digits, general
    category Nd, which are what [\d] matches in a [str] pattern. *)
Record tables : Type := mkTables {
  lower : text -> text;
  is_decimal : N -> bool
}.

Definition in_range (lo hi c : N) : bool := ((lo <=? c) && (c <=? hi))%N.

(** Where [$] matches: at the end, or before a newline that ends the text. *)
Definition at_eol (rest : text) : bool :=
  match rest with
  | [] => true
  | [c] => (c =? 10)%N
  | _ :: _ :: _ => false
  end.

(** The loop of [[class]{1,hi}$], after [taken] characters with [fuel]
    more allowed: greedy, one more character of the class is tried first,
    and the loop is left, with one character taken at least, where [$]
    matches. *)
Fixpoint rep_class (p : N -> bool) (fuel taken : nat) (rest : text) : bool :=
  let more :=
    match fuel, rest with
    | S fuel', c :: rest' => p c && rep_class p fuel' (S taken) rest'
    | _, _ => false
    end in
  more || (Nat.leb 1 taken && at_eol rest).

(** Whether [re.match] of [^[class]{1,32}$] on [s] finds a match. *)
Definition class_matches (p : N -> bool) (s : text) : bool :=
  rep_class p 32 0 s.

Module CommandHandler.

Record t : Type := mk {
  callback : Callback;
  command : list text;
  filters : Filter
}.

Section Init.

Variable T : tables.
Variable Filters_update_messages : Filter.
Variable filter_and : Filter -> Filter -> Filter.

(** The class [[\da-z_]] of the pattern in [__init__]. *)
Definition command_char (c : N) : bool :=
  is_decimal T c || in_range 97 122 c || (c =? 95)%N.

(** The loop of [__init__] over the lower-cased commands. *)
Fixpoint validate (commands : list text) : result unit :=
  match commands with
  | [] => Ret tt
  | comm :: rest =>
      if class_matches command_char comm then validate rest
      else Raise (ValueError "Command is not a valid bot command")
  end.

(** [CommandHandler.__init__] *)
Definition init (command : str_or_list) (callback : Callback)
    (filters : option Filter) : result t :=
  let command :=
    match command with
    | AStr s => [lower T s]
    | AList l => map (lower T) l
    end in
  _ <- validate command ;;
  Ret (mk callback command
         match filters with
         | Some f => filter_and Filters_update_messages f
         | None => Filters_update_messages
         end).

End Init.

End CommandHandler.

End Unicode.

(** ** [telegram/ext/inlinequeryhandler.py] *)

Module InlineQueryHandler.

Import Py Re Val.

Record t : Type := mk {
  callback : Callback;
  pattern : option regex
}.

(** [InlineQueryHandler.__init__]; a pattern given as text is compiled by
    [re.compile], so that the handler holds a parsed pattern either way. *)
Definition init (callback : Callback) (pattern : option regex) : t :=
  mk callback pattern.

(** [InlineQueryHandler.check_update] *)
Definition check_update (self : t) (update : pyobject) : result value :=
  match update with
  | OtherObject => Ret PyNone
  | AnUpdate u =>
      match Update.inline_query u with
      | None => Ret PyNone
      | Some inline_query =>
          match pattern self with
          | Some p =>
              if truthy_str (InlineQuery.query inline_query) then
                match re_match p (InlineQuery.query inline_query) with
                | Some m => Ret (PyMatch m)
                | None => Ret PyNone
                end
              else Ret PyNone
          | None => Ret (PyBool true)
          end
      end
  end.

(** [InlineQueryHandler.collect_additional_context] *)
Definition collect_additional_context (self : t) (context : CallbackContext.t)
    (update : Update.t) (dispatcher : Dispatcher.t) (check_result : value)
    : result CallbackContext.t :=
  match pattern self with
  | Some _ => Ret (CallbackContext.set_matches context (PyList [check_result]))
  | None => Ret context
  end.

End InlineQueryHandler.

(** ** [telegram/flow/inlineactionhandler.py] *)

Module InlineActionHandler.

Import Py Val.

Record t : Type := mk {
  callback : Callback;
  action_id : string
}.

(** [action == self.action_id], where [action] may be [None]. *)
Definition action_eqb (action : option string) (id : string) : bool :=
  match action with
  | Some a => String.eqb a id
  | None => false
  end.

(** [InlineActionHandler.check_update] *)
Definition check_update (self : t) (update : pyobject)
    (dispatcher : Dispatcher.t) : result value :=
  match update with
  | OtherObject => Ret PyNone
  | AnUpdate u =>
      match Update.callback_query u with
      | None => Ret PyNone
      | Some callback_query =>
          match CallbackQuery.data callback_query with
          | None => Ret PyNone
          | Some data =>
              if truthy_str data then
                let action :=
                  CallbackManager.peek_action (Dispatcher.callback_manager dispatcher)
                    data in
                Ret (PyBool (action_eqb action (action_id self)))
              else Ret PyNone
          end
      end
  end.

(** Reading an attribute of an object that may be [None]. *)
Definition deref {A : Type} (o : option A) : result A :=
  match o with
  | Some a => Ret a
  | None => Raise AttributeError
  end.

(** [InlineActionHandler.collect_additional_context] *)
Definition collect_additional_context (self : t) (context : CallbackContext.t)
    (update : Update.t) (dispatcher : Dispatcher.t) (check_result : value)
    : result CallbackContext.t :=
  chat <- deref (Update.effective_chat update) ;;
  let chat_id := Chat.id chat in
  callback_query <- deref (Update.callback_query update) ;;
  let callback_item :=
    CallbackManager.lookup_chat_bound_callback
      (Dispatcher.callback_manager dispatcher) chat_id
      (CallbackQuery.data callback_query) in
  item <- deref callback_item ;;
  Ret (CallbackContext.set_view_model context (CallbackManager.model_data item)).

End InlineActionHandler.

(** ** [telegram/inline/inlinequeryresultcachedvideo.py] *)

Module InlineQueryResultCachedVideo.

Import Py Val.

Section Init.

(** The base class [InlineQueryResult] is not among the sources: what its
    constructor makes of the type and the id is kept as it comes. *)
Variable Base : Type.
Variable InlineQueryResult_init : value -> value -> Base.

(** The attributes of the object; an optional attribute is [None] as long
    as it is not set. *)
Record t : Type := mk {
  base : Base;
  video_file_id : value;
  title : value;
  description : option value;
  caption : option value;
  reply_markup : option value;
  input_message_content : option value
}.

(** [if v: self.attr = v] *)
Definition optional (v : value) : option value :=
  if truthy v then Some v else None.

(** [InlineQueryResultCachedVideo.__init__]; an optional argument that is
    left out is [None]. *)
Definition init (id video_file_id title description caption reply_markup
    input_message_content : value) : t :=
  mk (InlineQueryResult_init (PyStr "video") id) video_file_id title
     (optional description) (optional caption) (optional reply_markup)
     (optional input_message_content).

(** The argument that stands for an attribute: the value, or [None] for an
    attribute that is not set. *)
Definition argument (a : option value) : value :=
  match a with
  | Some v => v
  | None => PyNone
  end.

End Init.

Arguments base {Base} _.
Arguments video_file_id {Base} _.
Arguments title {Base} _.
Arguments description {Base} _.
Arguments caption {Base} _.
Arguments reply_markup {Base} _.
Arguments input_message_content {Base} _.

End InlineQueryResultCachedVideo.

(** ** The interface of the handlers

    Every handler class derives from [telegram.ext.Handler] and overrides
    [check_update] and [collect_additional_context]. *)

Module Handler.

Class t (H : Type) : Type := {
  callback : H -> Callback;
  check_update : H -> pyobject -> Dispatcher.t -> Py.result Val.value;
  collect_additional_context :
    H -> CallbackContext.t -> Update.t -> Dispatcher.t -> Val.value ->
    Py.result CallbackContext.t
}.

(** Modelled from the spec: [Handler.handle_update] and the dispatcher are
    not among the sources.  The specification has the dispatcher bind the
    context of the accepting handler and then invoke the user callback: the
    callback runs on the context that [collect_additional_context] returns. *)
Definition handle_update {H : Type} `{t H} (self : H) (update : Update.t)
    (dispatcher : Dispatcher.t) (check_result : Val.value)
    (context : CallbackContext.t) : Py.result Val.value :=
  context' <- collect_additional_context self context update dispatcher
                check_result ;;
  callback self update context'.

End Handler.

#[export] Instance CommandHandler_handler : Handler.t CommandHandler.t := {
  Handler.callback := CommandHandler.callback;
  Handler.check_update := fun self update _ =>
    CommandHandler.check_update self update;
  Handler.collect_additional_context :=
    CommandHandler.collect_additional_context
}.

#[export] Instance PrefixHandler_handler : Handler.t PrefixHandler.t := {
  Handler.callback := PrefixHandler.callback;
  Handler.check_update := fun self update _ =>
    PrefixHandler.check_update self update;
  Handler.collect_additional_context :=
    PrefixHandler.collect_additional_context
}.

#[export] Instance InlineQueryHandler_handler
  : Handler.t InlineQueryHandler.t := {
  Handler.callback := InlineQueryHandler.callback;
  Handler.check_update := fun self update _ =>
    InlineQueryHandler.check_update self update;
  Handler.collect_additional_context :=
    InlineQueryHandler.collect_additional_context
}.

#[export] Instance InlineActionHandler_handler
  : Handler.t InlineActionHandler.t := {
  Handler.callback := InlineActionHandler.callback;
  Handler.check_update := InlineActionHandler.check_update;
  Handler.collect_additional_context :=
    InlineActionHandler.collect_additional_context
}.

(** ** The notions the specification words its requirements with *)

Module Spec.

Import Py Re Val.

(** The class [[a-z0-9_]] read without regard to case: a letter of either
    case, a digit or the underscore. *)
Definition token_char (c : ascii) : bool :=
  in_range 97 122 c || in_range 65 90 c || in_range 48 57 c
  || Ascii.eqb c "_".

(** [^[a-z0-9_]{1,32}$], matched case-insensitively. *)
Definition token_pattern : regex :=
  Seq Bol (Seq (Rep (Cls token_char) 1 32) Eol).

Definition valid_token (tok : string) : bool :=
  match re_match token_pattern tok with
  | Some _ => true
  | None => false
  end.

(** The same class on the whole of [str], in its widest reading, the one
    of [re.IGNORECASE]: besides the letters of ASCII in either case, the
    digits 0 to 9 and the underscore, the four letters outside ASCII whose
    other case lies in a to z (U+0130, U+0131, U+017F and U+212A). *)
Definition unicode_token_char (c : N) : bool :=
  Unicode.in_range 97 122 c || Unicode.in_range 65 90 c
  || Unicode.in_range 48 57 c || (c =? 95)%N
  || (c =? 304)%N || (c =? 305)%N || (c =? 383)%N || (c =? 8490)%N.

(** [^[a-z0-9_]{1,32}$], matched case-insensitively, on the whole of
    [str]. *)
Definition unicode_valid_token (tok : Unicode.text) : bool :=
  Unicode.class_matches unicode_token_char tok.

(** The strings a constructor argument stands for. *)
Definition strings_of (a : str_or_list) : list string :=
  match a with
  | AStr s => [s]
  | AList l => l
  end.

(** The command substring split on [@]: the command name comes first, the
    [@] segment, when there is one, second. *)
Definition command_name (cmd : string) : string :=
  hd EmptyString (split_on "@" cmd).

Definition at_segment (cmd : string) : option string :=
  nth_error (split_on "@" cmd) 1.

(** A command addresses the bot [me] when it has no [@] segment, or one
    that equals [me] up to case. *)
Definition addresses (cmd me : string) : bool :=
  match at_segment cmd with
  | None => true
  | Some b => String.eqb (lower b) (lower me)
  end.

(** The error of [CommandHandler.__init__]. *)
Definition invalid_command : exn :=
  ValueError "Command is not a valid bot command".

Definition is_some {A : Type} (o : option A) : bool :=
  match o with
  | Some _ => true
  | None => false
  end.

(** Every character of [s] passes the test [p]. *)
Fixpoint all_chars (p : ascii -> bool) (s : string) : bool :=
  match s with
  | EmptyString => true
  | String c s' => p c && all_chars p s'
  end.

Definition no_space (s : string) : bool :=
  all_chars (fun c => negb (isspace c)) s.

(** [c] is not the separator [sep]. *)
Definition differs_from (sep c : ascii) : bool := negb (Ascii.eqb c sep).

Definition no_at_sign (s : string) : bool := all_chars (differs_from "@") s.

(** The longest white-space-free prefix of [s]. *)
Fixpoint take_word (s : string) : string :=
  match s with
  | EmptyString => EmptyString
  | String c s' => if isspace c then EmptyString else String c (take_word s')
  end.

(** The first white-space-delimited token of [s], when [s] has one. *)
Fixpoint first_token (s : string) : option string :=
  match s with
  | EmptyString => None
  | String c s' => if isspace c then first_token s' else Some (take_word s)
  end.

(** The command set of a [PrefixHandler]: every pair of a prefix and a
    command, lower-cased and concatenated. *)
Definition prefixed_commands (prefixes commands : list string) : list string :=
  map (fun pc => (lower (fst pc) ++ lower (snd pc))%string)
    (list_prod prefixes commands).

(** The handler recognised its command: [check_update] returned, and not
    [None]. *)
Definition recognised (r : result value) : Prop :=
  exists v, r = Ret v /\ v <> NoMatch.

(** The handler accepts the update: [check_update] returned, and neither
    [None] nor [False]. *)
Definition accepts (r : result value) : Prop :=
  exists v, r = Ret v /\ v <> PyNone /\ v <> PyBool false.

(** The arguments of a command as they follow it in the text, each after
    one space. *)
Fixpoint join_args (args : list string) : string :=
  match args with
  | [] => EmptyString
  | a :: rest => String " " (a ++ join_args rest)
  end.

(** A token as [split] yields them: not empty and free of white space. *)
Definition clean_token (t : string) : Prop :=
  t <> EmptyString /\ no_space t = true.

(** The token of the update that the registry is asked about: the data of
    the callback query, when there is one and it is not empty. *)
Definition routed_token (upd : pyobject) : option string :=
  match upd with
  | OtherObject => None
  | AnUpdate u =>
      match Update.callback_query u with
      | None => None
      | Some cq =>
          match CallbackQuery.data cq with
          | Some tok => if truthy_str tok then Some tok else None
          | None => None
          end
      end
  end.

(** The update has the shape of a command for the handler: a bot-command
    entity at offset 0 whose command name is configured and which addresses
    this bot; [args] is what follows the command. *)
Definition command_shape (self : CommandHandler.t) (u : Update.t)
    (args : list string) : Prop :=
  exists message text e es bot,
    Update.effective_message u = Some message /\
    Message.text message = Some text /\
    Message.entities message = e :: es /\
    MessageEntity.type e = MessageEntity.BOT_COMMAND /\
    MessageEntity.offset e = 0%Z /\
    Message.bot message = Some bot /\
    In (lower (command_name (slice text 1 (MessageEntity.length e))))
       (CommandHandler.command self) /\
    addresses (slice text 1 (MessageEntity.length e)) (Bot.username bot)
      = true /\
    args = tail_from_1 (split text).

(** The update has the shape of a prefixed command for the handler: its
    first token, lower-cased, is in the command set. *)
Definition prefix_shape (self : PrefixHandler.t) (u : Update.t)
    (args : list string) : Prop :=
  exists message text tok,
    Update.effective_message u = Some message /\
    Message.text message = Some text /\
    first_token text = Some tok /\
    In (lower tok) (PrefixHandler.command self) /\
    args = tail_from_1 (split text).

End Spec.

(** ** Handlers and updates used in the worked cases *)

Module Fixtures.

Import Py Re Val.

Definition no_callback : Callback := fun _ _ => Ret PyNone.
Definition always : Filter := fun _ => PyBool true.
Definition never : Filter := fun _ => PyBool false.

(** [Filters.update.messages & f], for the worked cases: the second filter
    decides when the first holds. *)
Definition both (f g : Filter) : Filter :=
  fun u => if truthy (f u) then g u else PyBool false.

(** A message of the bot [botname] that starts with a bot command which is
    [len] characters long. *)
Definition command_update (text : string) (len : Z) : Update.t :=
  Update.mk
    (Some (Message.mk (Some text)
             [MessageEntity.mk MessageEntity.BOT_COMMAND 0 len]
             (Some (Bot.mk "botname"))))
    None None (Some (Chat.mk 1)).

(** A plain text message, without entities. *)
Definition text_update (text : string) : Update.t :=
  Update.mk (Some (Message.mk (Some text) [] (Some (Bot.mk "botname"))))
    None None (Some (Chat.mk 1)).

Definition inline_update (q : string) : Update.t :=
  Update.mk None (Some (InlineQuery.mk q)) None None.

Definition callback_update (data : string) : Update.t :=
  Update.mk None None (Some (CallbackQuery.mk (Some data))) (Some (Chat.mk 7)).

Definition start_handler (f : Filter) : CommandHandler.t :=
  CommandHandler.mk no_callback ["start"%string] f.

(** The handler that [PrefixHandler(['!', '#'], 'test', callback)] builds,
    with the filters [f]. *)
Definition test_handler (f : Filter) : PrefixHandler.t :=
  PrefixHandler.mk
    (CommandHandler.mk no_callback ["!test"%string; "#test"%string] f)
    ["!"%string; "#"%string].

Definition inline_handler (pattern : option regex) : InlineQueryHandler.t :=
  InlineQueryHandler.init no_callback pattern.

(** [^foo] *)
Definition caret_foo : regex := Seq Bol (lits "foo").

(** An excerpt of the tables of Unicode, for the worked cases: [str.lower]
    on the letters of ASCII, and the decimal digits 0 to 9 and U+0660 to
    U+0669, the Arabic-Indic digits. *)
Definition unicode_excerpt : Unicode.tables :=
  Unicode.mkTables
    (map (fun c => if Unicode.in_range 65 90 c then (c + 32)%N else c))
    (fun c => Unicode.in_range 48 57 c || Unicode.in_range 1632 1641 c).

(** U+0663, the Arabic-Indic digit three, as a command. *)
Definition arabic_indic_three : Unicode.text := [1635%N].

(** A session registry that knows the token [tok123] for the action [A]
    and has lost the record bound to it. *)
Definition desynced : Dispatcher.t :=
  Dispatcher.mk
    (CallbackManager.mk
       (fun tok => if String.eqb tok "tok123" then Some "A"%string else None)
       (fun _ _ => None)).

(** A callback that would return normally on any context. *)
Definition action_handler : InlineActionHandler.t :=
  InlineActionHandler.mk (fun _ _ => Ret (PyStr "called")) "A".

End Fixtures.

(** * Properties of the embedded code *)

Import Py Re Val Spec.

(** ** Strings *)

Section Strings.

Local Open Scope string_scope.

Lemma append_empty_r (s : string) : s ++ "" = s.
Proof. induction s as [|c s IH]; simpl; [reflexivity | now rewrite IH]. Qed.

Lemma append_assoc3 (a b c : string) : (a ++ b) ++ c = a ++ (b ++ c).
Proof. induction a as [|x a IH]; simpl; [reflexivity | now rewrite IH]. Qed.

Lemma append_snoc (tok : string) (c : ascii) (s : string) :
  (tok ++ String c "") ++ s = tok ++ String c s.
Proof. now rewrite append_assoc3. Qed.

Lemma append_length (a b : string) :
  String.length (a ++ b) = String.length a + String.length b.
Proof. induction a as [|x a IH]; simpl; [reflexivity | now rewrite IH]. Qed.

Lemma append_is_empty (a b : string) : a ++ b = "" -> a = "" /\ b = "".
Proof. destruct a; simpl; [auto | discriminate]. Qed.

Lemma all_chars_app (p : ascii -> bool) (a b : string) :
  all_chars p (a ++ b) = all_chars p a && all_chars p b.
Proof.
  induction a as [|c a IH]; simpl; [reflexivity|].
  now rewrite IH, andb_assoc.
Qed.

Lemma lower_app (a b : string) : lower (a ++ b) = lower a ++ lower b.
Proof. induction a as [|c a IH]; simpl; [reflexivity | now rewrite IH]. Qed.

Lemma lower_length (s : string) : String.length (lower s) = String.length s.
Proof. induction s as [|c s IH]; simpl; [reflexivity | now rewrite IH]. Qed.

Lemma lower_char_idem (c : ascii) : lower_char (lower_char c) = lower_char c.
Proof. destruct c as [[] [] [] [] [] [] [] []]; reflexivity. Qed.

Lemma lower_idem (s : string) : lower (lower s) = lower s.
Proof.
  induction s as [|c s IH]; simpl; [reflexivity|].
  now rewrite lower_char_idem, IH.
Qed.

(** The text primitives on some inputs. *)
Example slice_cases :
  slice "/start@bot x" 1 10 = "start@bot" /\
  slice "abc" 1 (-1) = "b" /\
  slice "abc" (-5) 7 = "abc" /\
  slice "abc" 2 1 = "".
Proof. repeat split. Qed.

Example split_cases :
  split " /start  hello world " = ["/start"; "hello"; "world"]%list /\
  split "   " = []%list /\
  split_on "@" "" = [""]%list /\
  split_on "@" "a@@b@" = ["a"; ""; "b"; ""]%list.
Proof. repeat split. Qed.

Example lower_cases : lower "AbC_Z[9" = "abc_z[9".
Proof. reflexivity. Qed.

Lemma str_in_In (x : string) (l : list string) : str_in x l = true <-> In x l.
Proof.
  unfold str_in. rewrite existsb_exists. split.
  - intros [y [Hy Heq]]. apply String.eqb_eq in Heq. now subst.
  - intros H. exists x. split; [assumption | apply String.eqb_refl].
Qed.

Lemma str_in_false (x : string) (l : list string) :
  str_in x l = false <-> ~ In x l.
Proof.
  rewrite <- str_in_In. destruct (str_in x l); split; intros H;
    congruence || (exfalso; now apply H).
Qed.

End Strings.

Create Rewrite HintDb strings.
#[export] Hint Rewrite append_empty_r append_snoc : strings.

(** ** [str.split()] *)

Section Split.

Local Open Scope string_scope.

Lemma flush_nonempty (tok : string) : tok <> "" -> flush tok = [tok].
Proof. destruct tok; [congruence | reflexivity]. Qed.

(** A white-space character ends the token being read: the scan of what
    precedes it and the split of what follows are independent. *)
Lemma split_loop_at_space (a b tok : string) (w : ascii) :
  isspace w = true ->
  split_loop tok (a ++ String w b) = (split_loop tok a ++ split b)%list.
Proof.
  intros Hw. revert tok.
  induction a as [|c a IH]; intros tok; simpl.
  - now rewrite Hw.
  - destruct (isspace c).
    + now rewrite IH, app_assoc.
    + apply IH.
Qed.

(** Text without white space is read into the current token as a whole. *)
Lemma split_loop_word (s tok : string) :
  no_space s = true -> split_loop tok s = flush (tok ++ s).
Proof.
  revert tok. induction s as [|c s IH]; intros tok H; simpl in *.
  - now autorewrite with strings.
  - apply andb_prop in H as [Hc Hs]. apply negb_true_iff in Hc.
    rewrite Hc, IH by assumption. now autorewrite with strings.
Qed.

Lemma split_at_space (a b : string) (w : ascii) :
  isspace w = true -> split (a ++ String w b) = (split a ++ split b)%list.
Proof. apply split_loop_at_space. Qed.

Lemma split_word (s : string) :
  no_space s = true -> s <> "" -> split s = [s].
Proof.
  intros H Hne. unfold split. rewrite split_loop_word by assumption.
  now apply flush_nonempty.
Qed.

Lemma split_empty : split "" = [].
Proof. reflexivity. Qed.

(** The tokens are never empty and hold no white space. *)
Lemma split_loop_tokens (s tok : string) :
  no_space tok = true ->
  Forall (fun t => t <> "" /\ no_space t = true) (split_loop tok s).
Proof.
  revert tok. induction s as [|c s IH]; intros tok Htok; simpl.
  - destruct tok; simpl; constructor; [|constructor].
    split; [discriminate | assumption].
  - destruct (isspace c) eqn:Hc.
    + apply Forall_app. split; [|now apply IH].
      destruct tok; simpl; constructor; [|constructor].
      split; [discriminate | assumption].
    + apply IH. unfold no_space in *. rewrite all_chars_app, Htok. simpl.
      now rewrite Hc.
Qed.

Lemma split_tokens (s : string) :
  Forall (fun t => t <> "" /\ no_space t = true) (split s).
Proof. now apply split_loop_tokens. Qed.

(** The head of the scan: the token being read, completed, or else the first
    token of the text. *)
Lemma hd_split_loop (s tok : string) :
  hd_error (split_loop tok s) =
  match tok with
  | "" => first_token s
  | String _ _ => Some (tok ++ take_word s)
  end.
Proof.
  revert tok. induction s as [|c s IH]; intros tok; simpl.
  - destruct tok; simpl; [reflexivity | now rewrite append_empty_r].
  - destruct (isspace c) eqn:Hc.
    + destruct tok; simpl.
      * now rewrite IH.
      * now rewrite append_empty_r.
    + rewrite IH. destruct tok; simpl; [reflexivity|].
      now rewrite append_snoc.
Qed.

(** [split(text)[0]] is the first white-space-delimited token. *)
Lemma hd_split (s : string) : hd_error (split s) = first_token s.
Proof. unfold split. now rewrite hd_split_loop. Qed.

Lemma item0_split (s : string) :
  item 0 (split s) =
  match first_token s with
  | Some t => Ret t
  | None => Raise IndexError
  end.
Proof.
  unfold item. rewrite <- hd_split. now destruct (split s).
Qed.

Lemma first_token_none (s : string) :
  first_token s = None <-> all_chars isspace s = true.
Proof.
  induction s as [|c s IH]; simpl; [tauto|].
  destruct (isspace c); simpl; [assumption | split; discriminate].
Qed.

(** Leading white space is skipped, then the token runs up to the next
    white space or to the end of the text. *)
Lemma first_token_shape (ws tok rest : string) :
  all_chars isspace ws = true ->
  no_space tok = true -> tok <> "" ->
  (rest = "" \/ exists w rest', rest = String w rest' /\ isspace w = true) ->
  first_token (ws ++ tok ++ rest) = Some tok.
Proof.
  intros Hws Htok Hne Hrest.
  assert (Hword : take_word (tok ++ rest) = tok).
  { clear Hne Hws. induction tok as [|c tok IH]; simpl in *.
    - destruct Hrest as [-> | [w [rest' [-> Hw]]]]; simpl;
        [reflexivity | now rewrite Hw].
    - apply andb_prop in Htok as [Hc Htok]. apply negb_true_iff in Hc.
      now rewrite Hc, IH. }
  induction ws as [|c ws IH]; simpl in *.
  - destruct tok as [|c tok]; [congruence|]. simpl in *.
    apply andb_prop in Htok as [Hc Htok]. apply negb_true_iff in Hc.
    rewrite Hc in *. exact (f_equal Some Hword).
  - apply andb_prop in Hws as [Hc Hws]. rewrite Hc. now apply IH.
Qed.

End Split.

(** ** [str.split('@')] and the parts of a command *)

Section SplitOn.

Local Open Scope string_scope.

Variable sep : ascii.

Lemma split_on_loop_plain (s tok : string) :
  all_chars (differs_from sep) s = true -> split_on_loop sep tok s = [tok ++ s].
Proof.
  revert tok. induction s as [|c s IH]; intros tok H; simpl in *.
  - now autorewrite with strings.
  - apply andb_prop in H as [Hc Hs]. apply negb_true_iff in Hc.
    rewrite Hc, IH by assumption. now autorewrite with strings.
Qed.

Lemma split_on_loop_at_sep (a b tok : string) :
  all_chars (differs_from sep) a = true ->
  split_on_loop sep tok (a ++ String sep b) = (tok ++ a) :: split_on sep b.
Proof.
  revert tok. induction a as [|c a IH]; intros tok H; simpl in *.
  - rewrite Ascii.eqb_refl. now autorewrite with strings.
  - apply andb_prop in H as [Hc Ha]. apply negb_true_iff in Hc.
    rewrite Hc, IH by assumption. now autorewrite with strings.
Qed.

Lemma split_on_loop_first (s tok : string) :
  exists x rest, split_on_loop sep tok s = x :: rest.
Proof.
  revert tok. induction s as [|c s IH]; intros tok; simpl.
  - now exists tok, [].
  - destruct (Ascii.eqb c sep); [now eexists; eexists | apply IH].
Qed.

(** A second segment exists exactly when the separator occurs. *)
Lemma split_on_loop_second (s tok : string) :
  nth_error (split_on_loop sep tok s) 1 = None <-> all_chars (differs_from sep) s = true.
Proof.
  revert tok. induction s as [|c s IH]; intros tok; simpl.
  - tauto.
  - unfold differs_from at 1. destruct (Ascii.eqb c sep); simpl.
    + destruct (split_on_loop_first s "") as [x [rest ->]].
      split; intros H; discriminate H.
    + apply IH.
Qed.

Lemma split_on_first (s : string) :
  exists x rest, split_on sep s = x :: rest.
Proof. apply split_on_loop_first. Qed.

End SplitOn.

Section CommandParts.

Local Open Scope string_scope.

(** Without an [@] the command is its own name and has no [@] segment. *)
Lemma command_without_at (cmd : string) :
  no_at_sign cmd = true -> command_name cmd = cmd /\ at_segment cmd = None.
Proof.
  intros H. unfold command_name, at_segment, split_on.
  now rewrite split_on_loop_plain by exact H.
Qed.

Lemma at_segment_none (cmd : string) :
  at_segment cmd = None <-> no_at_sign cmd = true.
Proof. apply split_on_loop_second. Qed.

(** [name@b]: the name is what precedes the [@], the segment what lies
    between it and the next [@] or the end. *)
Lemma command_with_at (name b rest : string) :
  no_at_sign name = true -> no_at_sign b = true ->
  (rest = "" \/ exists rest', rest = String "@" rest') ->
  command_name (name ++ String "@" (b ++ rest)) = name /\
  at_segment (name ++ String "@" (b ++ rest)) = Some b.
Proof.
  intros Hn Hb Hrest. unfold command_name, at_segment, split_on.
  rewrite split_on_loop_at_sep by exact Hn. simpl. split; [reflexivity|].
  destruct Hrest as [-> | [rest' ->]].
  - rewrite append_empty_r. unfold split_on.
    now rewrite split_on_loop_plain by exact Hb.
  - unfold split_on. now rewrite split_on_loop_at_sep by exact Hb.
Qed.

(** What [check_update] reads after appending the bot's name to the
    segments: the command name and, second, the [@] segment or else the
    bot's own name. *)
Lemma appended_segments (cmd me : string) :
  item 0 (split_on "@" cmd ++ [me]) = Ret (command_name cmd) /\
  item 1 (split_on "@" cmd ++ [me]) =
    Ret match at_segment cmd with Some b => b | None => me end.
Proof.
  unfold command_name, at_segment, item.
  destruct (split_on_first "@" cmd) as [x [rest ->]]. simpl.
  split; [reflexivity|]. now destruct rest.
Qed.

End CommandParts.

(** ** [CommandHandler.check_update] *)

(** Closes a case in which [check_update] falls through one of its tests:
    the tests are decided by the equations at hand. *)
Ltac falls_through :=
  unfold CommandHandler.check_update, CommandHandler.text_of,
    CommandHandler.bot_of, PrefixHandler.check_update;
  repeat (match goal with
          | H : _ = _ |- _ => rewrite H
          end; simpl);
  reflexivity.

Section CommandCheck.

Local Open Scope string_scope.

Variable self : CommandHandler.t.

(** On a message that starts with a bot-command entity and carries its
    bot, [check_update] comes down to two tests followed by the filters. *)
Lemma command_check_on_entity (u : Update.t) (message : Message.t)
    (text : string) (e : MessageEntity.t) (es : list MessageEntity.t)
    (bot : Bot.t) :
  Update.effective_message u = Some message ->
  Message.text message = Some text ->
  Message.entities message = e :: es ->
  MessageEntity.type e = MessageEntity.BOT_COMMAND ->
  MessageEntity.offset e = 0%Z ->
  Message.bot message = Some bot ->
  CommandHandler.check_update self (AnUpdate u) =
  if str_in (lower (command_name (slice text 1 (MessageEntity.length e))))
       (CommandHandler.command self)
     && addresses (slice text 1 (MessageEntity.length e)) (Bot.username bot)
  then CommandHandler.filter_stage self u (tail_from_1 (split text))
  else Ret PyNone.
Proof.
  intros Hm Ht He Hty Hoff Hb.
  unfold CommandHandler.check_update, CommandHandler.text_of,
    CommandHandler.bot_of.
  rewrite Hm, He, Hty, Hoff, Ht, Hb. simpl.
  set (cmd := slice text 1 (MessageEntity.length e)).
  set (me := Bot.username bot).
  destruct (appended_segments cmd me) as [H0 H1].
  rewrite H0, H1. simpl. unfold addresses.
  destruct (at_segment cmd) as [b|]; simpl.
  - now destruct (str_in _ _ && _).
  - rewrite String.eqb_refl. now destruct (str_in _ _ && _).
Qed.

(** The outcome of the filter stage, in the words of the specification. *)
Lemma filter_stage_outcome (u : Update.t) (args : list string) :
  CommandHandler.filter_stage self u args =
  Ret (if truthy (CommandHandler.filters self u)
       then Matched args (CommandHandler.filters self u)
       else Rejected).
Proof.
  unfold CommandHandler.filter_stage.
  now destruct (truthy (CommandHandler.filters self u)).
Qed.

(** Whatever the update, [check_update] either raises [TypeError] (a
    command entity on a message without text) or [AttributeError] (a
    command entity on a message without bot), or returns [None], [False]
    or an [(args, filter_result)] pair with a truthy filter result. *)
Lemma command_check_cases (upd : pyobject) :
  CommandHandler.check_update self upd = Raise TypeError \/
  CommandHandler.check_update self upd = Raise AttributeError \/
  CommandHandler.check_update self upd = Ret PyNone \/
  exists u args,
    upd = AnUpdate u /\ command_shape self u args /\
    CommandHandler.check_update self upd =
      CommandHandler.filter_stage self u args.
Proof.
  destruct upd as [u|]; [|now right; right; left].
  destruct (Update.effective_message u) as [message|] eqn:Hm;
    [|right; right; left; falls_through].
  destruct (Message.entities message) as [|e es] eqn:He;
    [right; right; left; falls_through|].
  destruct (String.eqb (MessageEntity.type e) MessageEntity.BOT_COMMAND)
    eqn:Hty; [|right; right; left; falls_through].
  destruct (MessageEntity.offset e =? 0)%Z eqn:Hoff;
    [|right; right; left; falls_through].
  destruct (Message.text message) as [text|] eqn:Ht;
    [|left; falls_through].
  destruct (Message.bot message) as [bot|] eqn:Hb;
    [|right; left; falls_through].
  apply String.eqb_eq in Hty. apply Z.eqb_eq in Hoff.
  rewrite (command_check_on_entity u message text e es bot
             Hm Ht He Hty Hoff Hb).
  destruct (str_in _ _) eqn:Hin; simpl; [|now right; right; left].
  destruct (addresses _ _) eqn:Haddr; [|now right; right; left].
  right; right; right. exists u, (tail_from_1 (split text)).
  split; [reflexivity|]. split; [|reflexivity].
  exists message, text, e, es, bot. apply str_in_In in Hin.
  now repeat split.
Qed.

End CommandCheck.

(** The decision by the segments of the command, whatever their number:
    the second segment of [command.split('@')], when there is one, is
    compared with the bot's name. *)
Lemma addressing_by_segment (self : CommandHandler.t) (u : Update.t)
    (message : Message.t) (text : string) (e : MessageEntity.t)
    (es : list MessageEntity.t) (bot : Bot.t) :
  Update.effective_message u = Some message ->
  Message.text message = Some text ->
  Message.entities message = e :: es ->
  MessageEntity.type e = MessageEntity.BOT_COMMAND ->
  MessageEntity.offset e = 0%Z ->
  Message.bot message = Some bot ->
  let cmd := slice text 1 (MessageEntity.length e) in
  let me := Bot.username bot in
  let passed :=
    Ret (if truthy (CommandHandler.filters self u)
         then Matched (tail_from_1 (split text)) (CommandHandler.filters self u)
         else Rejected) in
  In (lower (command_name cmd)) (CommandHandler.command self) ->
  (at_segment cmd = None ->
     CommandHandler.check_update self (AnUpdate u) = passed) /\
  (forall b, at_segment cmd = Some b -> lower b = lower me ->
     CommandHandler.check_update self (AnUpdate u) = passed) /\
  (forall b, at_segment cmd = Some b -> lower b <> lower me ->
     CommandHandler.check_update self (AnUpdate u) = Ret NoMatch).
Proof.
  intros Hm Ht He Hty Hoff Hb cmd me passed Hin.
  apply str_in_In in Hin.
  pose proof (command_check_on_entity self u message text e es bot
                Hm Ht He Hty Hoff Hb) as Hchk.
  fold cmd me in Hchk. rewrite Hin in Hchk. simpl in Hchk.
  rewrite filter_stage_outcome in Hchk. fold passed in Hchk.
  unfold addresses in Hchk.
  split; [|split].
  - intros Hseg. now rewrite Hseg in Hchk.
  - intros b Hseg Heq. rewrite Hseg, Heq, String.eqb_refl in Hchk. exact Hchk.
  - intros b Hseg Hneq. rewrite Hseg in Hchk.
    apply String.eqb_neq in Hneq. now rewrite Hneq in Hchk.
Qed.

(** What the filter stage returns is an acceptance exactly when the
    filters hold. *)
Lemma accepts_filter_outcome (args : list string) (filter_result : value) :
  accepts (Ret (if truthy filter_result
                then Matched args filter_result
                else Rejected)) <->
  truthy filter_result = true.
Proof.
  destruct (truthy filter_result); split.
  - reflexivity.
  - intros _. eexists. repeat split; discriminate.
  - intros [v [[= <-] [_ Hrej]]]. now elim Hrej.
  - discriminate.
Qed.

(** C1 does not hold as stated: with the command name configured and no
    [@] segment, or the bot's own name as [@] segment, the update is still
    not accepted when the filters of the handler do not hold; ['/start']
    under filters that reject gets [False]. *)
Lemma command_accept_needs_filters :
  ~ (forall (self : CommandHandler.t) (u : Update.t) (message : Message.t)
            (text : string) (e : MessageEntity.t)
            (es : list MessageEntity.t) (bot : Bot.t),
        Update.effective_message u = Some message ->
        Message.text message = Some text ->
        Message.entities message = e :: es ->
        MessageEntity.type e = MessageEntity.BOT_COMMAND ->
        MessageEntity.offset e = 0%Z ->
        Message.bot message = Some bot ->
        let cmd := slice text 1 (MessageEntity.length e) in
        In (lower (command_name cmd)) (CommandHandler.command self) ->
        at_segment cmd = None \/
        (exists b, at_segment cmd = Some b /\
                   lower b = lower (Bot.username bot)) ->
        accepts (CommandHandler.check_update self (AnUpdate u))).
Proof.
  intros H.
  destruct (H (Fixtures.start_handler Fixtures.never)
              (Fixtures.command_update "/start" 6) _ _ _ _ _
              eq_refl eq_refl eq_refl eq_refl eq_refl eq_refl
              (or_introl eq_refl) (or_introl eq_refl))
    as [v [Hv [_ Hrej]]].
  injection Hv as <-. now elim Hrej.
Qed.

(** C1, amended.  On a message whose text starts with a bot-command entity
    at offset 0 and whose command name is one of the handler's commands:
    if the command is the bare name, or the name followed by [@] and the
    bot's username up to case, [CommandHandler.check_update] returns what
    the filters decide, which is an acceptance, the pair
    [(args, filter_result)], exactly when the filters hold, and [False],
    never [None], when they do not; if what follows the [@] names another
    bot it returns [None].  In terms of the segments of the command, the
    [@] segment is the one that follows the name. *)
Theorem command_bot_addressing :
  forall (self : CommandHandler.t) (u : Update.t) (message : Message.t)
         (text : string) (e : MessageEntity.t) (es : list MessageEntity.t)
         (bot : Bot.t),
    Update.effective_message u = Some message ->
    Message.text message = Some text ->
    Message.entities message = e :: es ->
    MessageEntity.type e = MessageEntity.BOT_COMMAND ->
    MessageEntity.offset e = 0%Z ->
    Message.bot message = Some bot ->
    let cmd := slice text 1 (MessageEntity.length e) in
    let me := Bot.username bot in
    let passed :=
      Ret (if truthy (CommandHandler.filters self u)
           then Matched (tail_from_1 (split text)) (CommandHandler.filters self u)
           else Rejected) in
    (no_at_sign cmd = true ->
     In (lower cmd) (CommandHandler.command self) ->
     CommandHandler.check_update self (AnUpdate u) = passed) /\
    (forall name b : string,
        cmd = (name ++ String "@" b)%string ->
        no_at_sign name = true -> no_at_sign b = true ->
        In (lower name) (CommandHandler.command self) ->
        (lower b = lower me ->
         CommandHandler.check_update self (AnUpdate u) = passed) /\
        (lower b <> lower me ->
         CommandHandler.check_update self (AnUpdate u) = Ret NoMatch)) /\
    (In (lower (command_name cmd)) (CommandHandler.command self) ->
     (at_segment cmd = None ->
        CommandHandler.check_update self (AnUpdate u) = passed) /\
     (forall b, at_segment cmd = Some b -> lower b = lower me ->
        CommandHandler.check_update self (AnUpdate u) = passed) /\
     (forall b, at_segment cmd = Some b -> lower b <> lower me ->
        CommandHandler.check_update self (AnUpdate u) = Ret NoMatch)) /\
    (In (lower (command_name cmd)) (CommandHandler.command self) ->
     at_segment cmd = None \/
     (exists b, at_segment cmd = Some b /\ lower b = lower me) ->
     (accepts (CommandHandler.check_update self (AnUpdate u)) <->
      truthy (CommandHandler.filters self u) = true) /\
     (truthy (CommandHandler.filters self u) = false ->
      CommandHandler.check_update self (AnUpdate u) = Ret Rejected)) /\
    (accepts passed <-> truthy (CommandHandler.filters self u) = true) /\
    (truthy (CommandHandler.filters self u) = true ->
     passed = Ret (Matched (tail_from_1 (split text))
                     (CommandHandler.filters self u))) /\
    (truthy (CommandHandler.filters self u) = false ->
     passed = Ret Rejected) /\
    passed <> Ret NoMatch /\
    ~ accepts (Ret NoMatch).
Proof.
  intros self u message text e es bot Hm Ht He Hty Hoff Hb cmd me passed.
  pose proof (addressing_by_segment self u message text e es bot
                Hm Ht He Hty Hoff Hb) as Hseg.
  cbv zeta in Hseg. fold cmd me passed in Hseg.
  split; [|split; [|split; [|split; [|split; [|split; [|split; [|split]]]]]]].
  - intros Hplain Hin.
    destruct (command_without_at cmd Hplain) as [Hname Hnone].
    rewrite <- Hname in Hin. now apply (Hseg Hin).
  - intros name b Hcmd Hname Hbn Hin.
    destruct (command_with_at name b EmptyString Hname Hbn (or_introl eq_refl))
      as [Hn Hs].
    rewrite append_empty_r, <- Hcmd in Hn, Hs.
    rewrite <- Hn in Hin. destruct (Hseg Hin) as [_ [Heq Hneq]].
    split; intros H; [now apply (Heq b) | now apply (Hneq b)].
  - exact Hseg.
  - intros Hin Haddr. destruct (Hseg Hin) as [Hnone [Heq _]].
    assert (Hchk : CommandHandler.check_update self (AnUpdate u) = passed).
    { destruct Haddr as [Hs | [b [Hs Hb']]];
        [now apply Hnone | now apply (Heq b)]. }
    rewrite Hchk. split; [apply accepts_filter_outcome|].
    unfold passed. now intros ->.
  - apply accepts_filter_outcome.
  - unfold passed. now intros ->.
  - unfold passed. now intros ->.
  - unfold passed. destruct (truthy _); discriminate.
  - intros [v [[= <-] [Hnone _]]]. now elim Hnone.
Qed.

(** ['/start'], ['/start@botname'] and ['/start@othername'] for the bot
    [botname] and a handler for [["start"]]. *)
Example start_plain :
  CommandHandler.check_update (Fixtures.start_handler Fixtures.always)
    (AnUpdate (Fixtures.command_update "/start" 6))
  = Ret (Matched [] (PyBool true)).
Proof. reflexivity. Qed.

Example start_at_botname :
  CommandHandler.check_update (Fixtures.start_handler Fixtures.always)
    (AnUpdate (Fixtures.command_update "/start@botname" 14))
  = Ret (Matched [] (PyBool true)).
Proof. reflexivity. Qed.

(** With several [@], the segment between the first two decides. *)
Example start_two_segments :
  CommandHandler.check_update (Fixtures.start_handler Fixtures.always)
    (AnUpdate (Fixtures.command_update "/start@botname@x" 16))
  = Ret (Matched [] (PyBool true)) /\
  CommandHandler.check_update (Fixtures.start_handler Fixtures.always)
    (AnUpdate (Fixtures.command_update "/start@x@botname" 16))
  = Ret NoMatch.
Proof. split; reflexivity. Qed.

Example start_at_othername :
  CommandHandler.check_update (Fixtures.start_handler Fixtures.always)
    (AnUpdate (Fixtures.command_update "/start@othername" 16))
  = Ret NoMatch.
Proof. reflexivity. Qed.

Lemma command_bot_addressing_witness :
  CommandHandler.check_update (Fixtures.start_handler Fixtures.always)
    (AnUpdate (Fixtures.command_update "/Start@BotName hi" 14))
  = Ret (Matched ["hi"%string] (PyBool true)) /\
  CommandHandler.check_update (Fixtures.start_handler Fixtures.never)
    (AnUpdate (Fixtures.command_update "/start@tob" 10))
  = Ret NoMatch.
Proof.
  split.
  - refine (proj1 (proj1 (proj2 (command_bot_addressing
             (Fixtures.start_handler Fixtures.always)
             (Fixtures.command_update "/Start@BotName hi" 14)
             _ _ _ _ _ eq_refl eq_refl eq_refl eq_refl eq_refl eq_refl))
             "Start"%string "BotName"%string eq_refl eq_refl eq_refl _)
             eq_refl).
    simpl. left. reflexivity.
  - refine (proj2 (proj1 (proj2 (command_bot_addressing
             (Fixtures.start_handler Fixtures.never)
             (Fixtures.command_update "/start@tob" 10)
             _ _ _ _ _ eq_refl eq_refl eq_refl eq_refl eq_refl eq_refl))
             "start"%string "tob"%string eq_refl eq_refl eq_refl _) _).
    + simpl. left. reflexivity.
    + simpl. discriminate.
Defined.

(** ** [PrefixHandler.check_update] *)

Section PrefixCheck.

Local Open Scope string_scope.

Variable self : PrefixHandler.t.

(** On a message with text, [check_update] reads the first token, looks it
    up in the command set and then asks the filters. *)
Lemma prefix_check_on_text (u : Update.t) (message : Message.t)
    (text : string) :
  Update.effective_message u = Some message ->
  Message.text message = Some text ->
  PrefixHandler.check_update self (AnUpdate u) =
  if truthy_str text then
    match first_token text with
    | None => Raise IndexError
    | Some tok =>
        if str_in (lower tok) (PrefixHandler.command self)
        then Ret (if truthy (PrefixHandler.filters self u)
                  then Matched (tail_from_1 (split text))
                         (PrefixHandler.filters self u)
                  else Rejected)
        else Ret NoMatch
    end
  else Ret NoMatch.
Proof.
  intros Hm Ht. unfold PrefixHandler.check_update. rewrite Hm, Ht.
  destruct (truthy_str text); [|reflexivity].
  rewrite item0_split. destruct (first_token text) as [tok|]; simpl;
    [|reflexivity].
  destruct (str_in _ _); simpl; [|reflexivity].
  now destruct (truthy _).
Qed.

Lemma first_token_truthy (text tok : string) :
  first_token text = Some tok -> truthy_str text = true.
Proof. destruct text; [discriminate | reflexivity]. Qed.

(** A prefixed command goes to the filters. *)
Lemma prefix_check_on_shape (u : Update.t) (args : list string) :
  prefix_shape self u args ->
  PrefixHandler.check_update self (AnUpdate u) =
  Ret (if truthy (PrefixHandler.filters self u)
       then Matched args (PrefixHandler.filters self u)
       else Rejected).
Proof.
  intros [message [text [tok [Hm [Ht [Htok [Hin ->]]]]]]].
  rewrite (prefix_check_on_text u message text Hm Ht).
  rewrite (first_token_truthy _ _ Htok), Htok.
  apply str_in_In in Hin. now rewrite Hin.
Qed.

(** Anything but [None] or an [IndexError] comes from a prefixed command. *)
Lemma prefix_check_cases (upd : pyobject) :
  PrefixHandler.check_update self upd = Raise IndexError \/
  PrefixHandler.check_update self upd = Ret NoMatch \/
  exists u args, upd = AnUpdate u /\ prefix_shape self u args.
Proof.
  destruct upd as [u|]; [|now right; left].
  destruct (Update.effective_message u) as [message|] eqn:Hm;
    [|right; left; falls_through].
  destruct (Message.text message) as [text|] eqn:Ht;
    [|right; left; falls_through].
  rewrite (prefix_check_on_text u message text Hm Ht).
  destruct (truthy_str text); [|now right; left].
  destruct (first_token text) as [tok|] eqn:Htok; [|now left].
  destruct (str_in _ _) eqn:Hin; [|now right; left].
  right; right. exists u, (tail_from_1 (split text)).
  split; [reflexivity|]. exists message, text, tok.
  apply str_in_In in Hin. now repeat split.
Qed.

End PrefixCheck.

(** A command passes to the filters when it has the command shape. *)
Lemma command_check_on_shape (self : CommandHandler.t) (u : Update.t)
    (args : list string) :
  command_shape self u args ->
  CommandHandler.check_update self (AnUpdate u) =
  Ret (if truthy (CommandHandler.filters self u)
       then Matched args (CommandHandler.filters self u)
       else Rejected).
Proof.
  intros [message [text [e [es [bot
            [Hm [Ht [He [Hty [Hoff [Hb [Hin [Haddr ->]]]]]]]]]]]]].
  rewrite (command_check_on_entity self u message text e es bot
             Hm Ht He Hty Hoff Hb).
  apply str_in_In in Hin. rewrite Hin, Haddr. simpl.
  apply filter_stage_outcome.
Qed.

(** C2.  When the update has the shape of the handler's command (for a
    [PrefixHandler]: its first token is in the command set), [check_update]
    returns [False] if the filters give a falsy value and the pair of the
    args and the filter result if they give a truthy one; [False] differs
    from the [None] of a shape that does not match, and is returned in no
    other case. *)
Theorem filter_veto_is_rejected :
  (forall (self : CommandHandler.t) (u : Update.t) (args : list string),
      command_shape self u args ->
      (truthy (CommandHandler.filters self u) = false ->
         CommandHandler.check_update self (AnUpdate u) = Ret Rejected) /\
      (truthy (CommandHandler.filters self u) = true ->
         CommandHandler.check_update self (AnUpdate u) =
           Ret (Matched args (CommandHandler.filters self u)))) /\
  (forall (self : PrefixHandler.t) (u : Update.t) (args : list string),
      prefix_shape self u args ->
      (truthy (PrefixHandler.filters self u) = false ->
         PrefixHandler.check_update self (AnUpdate u) = Ret Rejected) /\
      (truthy (PrefixHandler.filters self u) = true ->
         PrefixHandler.check_update self (AnUpdate u) =
           Ret (Matched args (PrefixHandler.filters self u)))) /\
  Rejected <> NoMatch /\
  (forall (self : CommandHandler.t) (upd : pyobject),
      CommandHandler.check_update self upd = Ret Rejected ->
      exists u args, upd = AnUpdate u /\ command_shape self u args /\
                     truthy (CommandHandler.filters self u) = false) /\
  (forall (self : PrefixHandler.t) (upd : pyobject),
      PrefixHandler.check_update self upd = Ret Rejected ->
      exists u args, upd = AnUpdate u /\ prefix_shape self u args /\
                     truthy (PrefixHandler.filters self u) = false).
Proof.
  split; [|split; [|split; [|split]]].
  - intros self u args Hshape.
    rewrite (command_check_on_shape self u args Hshape).
    split; intros ->; reflexivity.
  - intros self u args Hshape.
    rewrite (prefix_check_on_shape self u args Hshape).
    split; intros ->; reflexivity.
  - discriminate.
  - intros self upd Hrej.
    destruct (command_check_cases self upd)
      as [H | [H | [H | [u [args [-> [Hshape H]]]]]]];
      try (rewrite H in Hrej; discriminate Hrej).
    exists u, args. split; [reflexivity|]. split; [assumption|].
    rewrite (command_check_on_shape self u args Hshape) in Hrej.
    destruct (truthy _); [discriminate Hrej | reflexivity].
  - intros self upd Hrej.
    destruct (prefix_check_cases self upd)
      as [H | [H | [u [args [-> Hshape]]]]];
      try (rewrite H in Hrej; discriminate Hrej).
    exists u, args. split; [reflexivity|]. split; [assumption|].
    rewrite (prefix_check_on_shape self u args Hshape) in Hrej.
    destruct (truthy _); [discriminate Hrej | reflexivity].
Qed.

Lemma filter_veto_is_rejected_witness :
  CommandHandler.check_update (Fixtures.start_handler Fixtures.never)
    (AnUpdate (Fixtures.command_update "/start now" 6)) = Ret Rejected /\
  PrefixHandler.check_update (Fixtures.test_handler Fixtures.always)
    (AnUpdate (Fixtures.text_update "!Test now"))
  = Ret (Matched ["now"%string] (PyBool true)).
Proof.
  split.
  - refine (proj1 (proj1 filter_veto_is_rejected
             (Fixtures.start_handler Fixtures.never)
             (Fixtures.command_update "/start now" 6) ["now"%string] _)
             eq_refl).
    eexists; eexists; eexists; eexists; eexists.
    repeat (split; [reflexivity|]).
    split; [simpl; left; reflexivity|].
    split; reflexivity.
  - refine (proj2 (proj1 (proj2 filter_veto_is_rejected)
             (Fixtures.test_handler Fixtures.always)
             (Fixtures.text_update "!Test now") ["now"%string] _)
             eq_refl).
    eexists; eexists; eexists.
    repeat (split; [reflexivity|]).
    split; [simpl; left; reflexivity | reflexivity].
Defined.

(** ** [InlineQueryHandler] *)

Section InlineQuery.

Local Open Scope string_scope.

Lemma truthy_str_iff (s : string) : truthy_str s = true <-> s <> "".
Proof. destruct s; simpl; split; congruence. Qed.

(** What [check_update] returns on an update that carries an inline
    query. *)
Lemma inline_check_on_query (self : InlineQueryHandler.t) (u : Update.t)
    (iq : InlineQuery.t) :
  Update.inline_query u = Some iq ->
  InlineQueryHandler.check_update self (AnUpdate u) =
  match InlineQueryHandler.pattern self with
  | None => Ret (PyBool true)
  | Some p =>
      if truthy_str (InlineQuery.query iq) then
        match re_match p (InlineQuery.query iq) with
        | Some m => Ret (PyMatch m)
        | None => Ret PyNone
        end
      else Ret PyNone
  end.
Proof.
  intros Hq. unfold InlineQueryHandler.check_update. now rewrite Hq.
Qed.

End InlineQuery.

(** C3 does not hold as stated: a handler without a pattern accepts an
    inline query whose text is empty. *)
Lemma inline_empty_query_accepted :
  ~ (forall (self : InlineQueryHandler.t) (u : Update.t) (iq : InlineQuery.t),
        Update.inline_query u = Some iq ->
        accepts (InlineQueryHandler.check_update self (AnUpdate u)) ->
        InlineQuery.query iq <> EmptyString).
Proof.
  intros H.
  apply (H (Fixtures.inline_handler None) (Fixtures.inline_update "")
           (InlineQuery.mk "") eq_refl); [|reflexivity].
  exists (PyBool true). repeat split; discriminate.
Qed.

(** C3, amended.  On an update that carries an inline query, a handler with
    a pattern accepts exactly when the query text is not empty and the
    pattern matches at its start; a handler without a pattern accepts the
    update whatever the query text is, the empty text included. *)
Theorem inline_query_acceptance :
  forall (self : InlineQueryHandler.t) (u : Update.t) (iq : InlineQuery.t),
    Update.inline_query u = Some iq ->
    (forall p, InlineQueryHandler.pattern self = Some p ->
       (accepts (InlineQueryHandler.check_update self (AnUpdate u)) <->
        InlineQuery.query iq <> EmptyString /\
        exists m, re_match p (InlineQuery.query iq) = Some m)) /\
    (InlineQueryHandler.pattern self = None ->
       InlineQueryHandler.check_update self (AnUpdate u) = Ret (PyBool true) /\
       accepts (InlineQueryHandler.check_update self (AnUpdate u))).
Proof.
  intros self u iq Hq.
  rewrite (inline_check_on_query self u iq Hq).
  split.
  - intros p ->. split.
    + intros [v [Hv [Hnone _]]].
      destruct (truthy_str (InlineQuery.query iq)) eqn:Hne.
      * apply truthy_str_iff in Hne. split; [assumption|].
        destruct (re_match p (InlineQuery.query iq)) as [m|];
          [now exists m|].
        injection Hv as <-. now elim Hnone.
      * injection Hv as <-. now elim Hnone.
    + intros [Hne [m Hm]]. apply truthy_str_iff in Hne.
      rewrite Hne, Hm. exists (PyMatch m). repeat split; discriminate.
  - intros ->. split; [reflexivity|].
    exists (PyBool true). repeat split; discriminate.
Qed.

Lemma inline_query_acceptance_witness :
  accepts (InlineQueryHandler.check_update
             (Fixtures.inline_handler (Some Fixtures.caret_foo))
             (AnUpdate (Fixtures.inline_update "foobar"))) /\
  InlineQueryHandler.check_update (Fixtures.inline_handler None)
    (AnUpdate (Fixtures.inline_update "")) = Ret (PyBool true).
Proof.
  split.
  - apply (proj1 (inline_query_acceptance
                    (Fixtures.inline_handler (Some Fixtures.caret_foo))
                    (Fixtures.inline_update "foobar")
                    (InlineQuery.mk "foobar") eq_refl)
             Fixtures.caret_foo eq_refl).
    split; [discriminate|]. eexists. reflexivity.
  - exact (proj1 (proj2 (inline_query_acceptance
                    (Fixtures.inline_handler None)
                    (Fixtures.inline_update "")
                    (InlineQuery.mk "") eq_refl) eq_refl)).
Defined.

(** ** The matcher of [re] *)

Section Matcher.

Local Open Scope string_scope.

Variable A : Type.

Lemma step_advances (p : ascii -> bool) : advances (A := A) (step p).
Proof.
  intros pos rest k x H. unfold step in H.
  destruct rest as [|d rest']; [discriminate H|].
  destruct (p d); [|discriminate H].
  exists (String d ""), rest'. split; [reflexivity|].
  simpl. now rewrite Nat.add_1_r.
Qed.

Lemma rep_loop_advances
    (body : nat -> string -> (nat -> string -> option A) -> option A)
    (lo hi fuel : nat) :
  advances body -> advances (rep_loop body lo hi fuel).
Proof.
  intros Hbody. induction fuel as [|fuel IH]; intros pos rest k x H.
  - simpl in H. destruct (Nat.leb lo (hi - 0)); [|discriminate H].
    exists "", rest. simpl. now rewrite Nat.add_0_r.
  - simpl in H.
    destruct (body pos rest
                (fun pos' rest' => rep_loop body lo hi fuel pos' rest' k))
      as [y|] eqn:Hmore.
    + injection H as ->.
      apply Hbody in Hmore as [w [rest1 [-> Hk]]].
      apply IH in Hk as [w2 [rest2 [-> Hk]]].
      exists (w ++ w2), rest2. split; [now rewrite append_assoc3|].
      rewrite <- Hk. f_equal.
      rewrite append_length. lia.
    + destruct (Nat.leb lo (hi - S fuel)); [|discriminate H].
      exists "", rest. simpl. now rewrite Nat.add_0_r.
Qed.

Lemma run_advances (r : regex) : advances (A := A) (run r).
Proof.
  induction r as [| | |c|p|r1 IH1 r2 IH2|r1 IH1 r2 IH2|r IH lo hi];
    intros pos rest k x H; simpl in H.
  - exists "", rest. simpl. now rewrite Nat.add_0_r.
  - destruct (Nat.eqb pos 0); [|discriminate H].
    exists "", rest. simpl. now rewrite Nat.add_0_r.
  - destruct (at_eol rest); [|discriminate H].
    exists "", rest. simpl. now rewrite Nat.add_0_r.
  - now apply step_advances in H.
  - now apply step_advances in H.
  - apply IH1 in H as [w1 [rest1 [-> H]]].
    apply IH2 in H as [w2 [rest2 [-> H]]].
    exists (w1 ++ w2), rest2. split; [now rewrite append_assoc3|].
    rewrite <- H. f_equal. rewrite append_length. lia.
  - destruct (run r1 pos rest k) as [y|] eqn:H1.
    + injection H as ->. now apply IH1.
    + now apply IH2.
  - now apply (rep_loop_advances (run r) lo hi hi IH) in H.
Qed.

End Matcher.

Section MatchObjects.

Local Open Scope string_scope.

(** A match found by [re.match] starts at position 0 of the searched
    text and ends inside it. *)
Lemma re_match_span (r : regex) (s : string) (m : Match) :
  re_match r s = Some m ->
  m_string m = s /\ m_start m = 0 /\ m_end m <= String.length s.
Proof.
  unfold re_match, match_at. simpl. intros H.
  apply run_advances in H as [w [rest' [-> H]]].
  injection H as <-. simpl. rewrite append_length.
  repeat split. lia.
Qed.

End MatchObjects.

(** C7.  A handler with a pattern, on an inline query with a non-empty
    text, returns what [re.match] finds: the match object, which starts at
    position 0 of the query text and need not reach its end, or [None].
    [^foo] accepts ["foobar"] with the span from 0 and rejects ["barfoo"];
    [foo] also rejects ["barfoo"], which a search would find, and [^foo]
    accepts ["foobar"], which a full match would not.  On accept,
    [collect_additional_context] sets [context.matches] to the list that
    holds the match object alone; without a pattern it leaves the context
    as it is. *)
Theorem inline_pattern_match :
  (forall (self : InlineQueryHandler.t) (p : regex) (u : Update.t)
          (iq : InlineQuery.t) (ctx : CallbackContext.t)
          (dispatcher : Dispatcher.t),
      InlineQueryHandler.pattern self = Some p ->
      Update.inline_query u = Some iq ->
      InlineQuery.query iq <> EmptyString ->
      InlineQueryHandler.check_update self (AnUpdate u) =
        Ret match re_match p (InlineQuery.query iq) with
            | Some m => PyMatch m
            | None => NoMatch
            end /\
      forall m, re_match p (InlineQuery.query iq) = Some m ->
        m_string m = InlineQuery.query iq /\
        m_start m = 0 /\
        m_end m <= String.length (InlineQuery.query iq) /\
        exists ctx',
          InlineQueryHandler.collect_additional_context self ctx u dispatcher
            (PyMatch m) = Ret ctx' /\
          CallbackContext.matches ctx' = Some (PyList [PyMatch m])) /\
  (forall (self : InlineQueryHandler.t) (u : Update.t) (check_result : value)
          (ctx : CallbackContext.t) (dispatcher : Dispatcher.t),
      InlineQueryHandler.pattern self = None ->
      InlineQueryHandler.collect_additional_context self ctx u dispatcher
        check_result = Ret ctx) /\
  InlineQueryHandler.check_update
    (Fixtures.inline_handler (Some Fixtures.caret_foo))
    (AnUpdate (Fixtures.inline_update "foobar"))
    = Ret (PyMatch (mkMatch "foobar" 0 3)) /\
  InlineQueryHandler.check_update
    (Fixtures.inline_handler (Some Fixtures.caret_foo))
    (AnUpdate (Fixtures.inline_update "barfoo")) = Ret NoMatch /\
  InlineQueryHandler.check_update
    (Fixtures.inline_handler (Some (lits "foo")))
    (AnUpdate (Fixtures.inline_update "barfoo")) = Ret NoMatch /\
  re_search (lits "foo") "barfoo" = Some (mkMatch "barfoo" 3 6) /\
  re_fullmatch Fixtures.caret_foo "foobar" = None.
Proof.
  split; [|split; [|repeat split]].
  - intros self p u iq ctx dispatcher Hp Hq Hne.
    rewrite (inline_check_on_query self u iq Hq), Hp.
    apply truthy_str_iff in Hne. rewrite Hne. split.
    + now destruct (re_match p (InlineQuery.query iq)).
    + intros m Hm. apply re_match_span in Hm as [Hs [H0 Hlen]].
      repeat (split; [assumption|]).
      unfold InlineQueryHandler.collect_additional_context. rewrite Hp.
      eexists. split; reflexivity.
  - intros self u check_result ctx dispatcher Hp.
    unfold InlineQueryHandler.collect_additional_context. now rewrite Hp.
Qed.

Lemma inline_pattern_match_witness :
  exists ctx',
    InlineQueryHandler.collect_additional_context
      (Fixtures.inline_handler (Some Fixtures.caret_foo))
      CallbackContext.fresh (Fixtures.inline_update "foobar")
      Fixtures.desynced (PyMatch (mkMatch "foobar" 0 3)) = Ret ctx' /\
    CallbackContext.matches ctx'
      = Some (PyList [PyMatch (mkMatch "foobar" 0 3)]).
Proof.
  refine (proj2 (proj2 (proj2 (proj2 (proj1 inline_pattern_match
            (Fixtures.inline_handler (Some Fixtures.caret_foo))
            Fixtures.caret_foo (Fixtures.inline_update "foobar")
            (InlineQuery.mk "foobar") CallbackContext.fresh
            Fixtures.desynced
            eq_refl eq_refl _) (mkMatch "foobar" 0 3) eq_refl)))).
  discriminate.
Defined.

(** ** The pattern of command names *)

Section CommandPattern.

Local Open Scope string_scope.

Variable A : Type.

(** A bounded greedy repetition of a character class succeeds exactly when
    some run of characters of the class, of an admissible length, is
    followed by a text on which the continuation succeeds. *)
Lemma rep_class_some (p : ascii -> bool) (lo hi fuel : nat)
    (k : nat -> string -> option A) :
  fuel <= hi ->
  forall pos rest,
    is_some (rep_loop (step p) lo hi fuel pos rest k) = true <->
    exists w tail,
      rest = w ++ tail /\ all_chars p w = true /\
      String.length w <= fuel /\ lo <= hi - fuel + String.length w /\
      is_some (k (pos + String.length w) tail) = true.
Proof.
  induction fuel as [|fuel IH]; intros Hle pos rest.
  - simpl. split.
    + destruct (Nat.leb lo (hi - 0)) eqn:Hlo; [|discriminate].
      intros Hk. apply Nat.leb_le in Hlo.
      exists "", rest. simpl. rewrite ?Nat.add_0_r.
      repeat split; try assumption; lia.
    + intros [w [tail [-> [_ [Hlen [Hlo Hk]]]]]].
      destruct w; [|simpl in Hlen; lia]. simpl in *.
      rewrite ?Nat.add_0_r in Hk.
      assert (Nat.leb lo (hi - 0) = true) as -> by (apply Nat.leb_le; lia).
      exact Hk.
  - assert (Hlast :
      is_some (if Nat.leb lo (hi - S fuel) then k pos rest else None) = true <->
      lo <= hi - S fuel /\ is_some (k pos rest) = true).
    { destruct (Nat.leb lo (hi - S fuel)) eqn:Hlo.
      - apply Nat.leb_le in Hlo. tauto.
      - apply Nat.leb_gt in Hlo. simpl. split; [discriminate | lia]. }
    simpl. destruct rest as [|d rest']; simpl.
    + rewrite Hlast. split.
      * intros [Hlo Hk]. exists "", "". simpl. rewrite ?Nat.add_0_r.
        repeat split; try assumption; lia.
      * intros [w [tail [Heq [_ [_ [Hlo Hk]]]]]].
        symmetry in Heq. apply append_is_empty in Heq as [-> ->].
        simpl in *. rewrite ?Nat.add_0_r in *. split; [lia | assumption].
    + destruct (p d) eqn:Hd.
      * specialize (IH ltac:(lia) (S pos) rest').
        destruct (rep_loop (step p) lo hi fuel (S pos) rest' k) as [y|] eqn:Hrec.
        -- simpl. split; [intros _ | reflexivity].
           destruct (proj1 IH eq_refl) as [w [tail [-> [Hw [Hlen [Hlo Hk]]]]]].
           exists (String d w), tail. simpl. rewrite Hd, Hw.
           replace (pos + S (String.length w)) with (S pos + String.length w)
             by lia.
           repeat split; try assumption; lia.
        -- rewrite Hlast. split.
           ++ intros [Hlo Hk]. exists "", (String d rest'). simpl.
              rewrite ?Nat.add_0_r. repeat split; try assumption; lia.
           ++ intros [w [tail [Heq [Hw [Hlen [Hlo Hk]]]]]].
              destruct w as [|c w]; simpl in Heq, Hw, Hlen, Hlo, Hk.
              ** subst tail. rewrite ?Nat.add_0_r in *.
                 split; [lia | assumption].
              ** injection Heq as <- ->.
                 apply andb_prop in Hw as [_ Hw].
                 assert (is_some (@None A) = true) as Habs; [|discriminate Habs].
                 apply IH. exists w, tail.
                 replace (pos + S (String.length w))
                   with (S pos + String.length w) in Hk by lia.
                 repeat split; try assumption; lia.
      * rewrite Hlast. split.
        -- intros [Hlo Hk]. exists "", (String d rest'). simpl.
           rewrite ?Nat.add_0_r. repeat split; try assumption; lia.
        -- intros [w [tail [Heq [Hw [Hlen [Hlo Hk]]]]]].
           destruct w as [|c w]; simpl in Heq, Hw, Hlen, Hlo, Hk.
           ++ subst tail. rewrite ?Nat.add_0_r in *.
              split; [lia | assumption].
           ++ injection Heq as <- ->. rewrite Hd in Hw. discriminate Hw.
Qed.

End CommandPattern.

Section CommandNames.

Local Open Scope string_scope.

Lemma at_eol_iff (t : string) :
  at_eol t = true <-> t = "" \/ t = String newline "".
Proof.
  destruct t as [|c [|d t]]; simpl.
  - tauto.
  - rewrite Ascii.eqb_eq. split.
    + intros ->. now right.
    + intros [H | H]; [discriminate H | now injection H].
  - split; [discriminate | intros [H | H]; discriminate H].
Qed.

(** [^[class]{1,32}$] matches a text made of 1 to 32 characters of the
    class, and such a text followed by one newline; nothing else. *)
Lemma class_pattern_matches (p : ascii -> bool) (s : string) :
  is_some (re_match (Seq Bol (Seq (Rep (Cls p) 1 32) Eol)) s) = true <->
  exists w tail,
    s = w ++ tail /\ all_chars p w = true /\
    1 <= String.length w <= 32 /\ (tail = "" \/ tail = String newline "").
Proof.
  unfold re_match, match_at. cbn [run drop Nat.eqb].
  rewrite rep_class_some by lia. split.
  - intros [w [tail [-> [Hw [Hlen [Hlo Hk]]]]]].
    exists w, tail. repeat split; try assumption; try lia.
    apply at_eol_iff. now destruct (at_eol tail).
  - intros [w [tail [-> [Hw [[Hlo Hhi] Htail]]]]].
    exists w, tail. repeat split; try assumption; try lia.
    apply at_eol_iff in Htail. now rewrite Htail.
Qed.

Lemma command_char_lower (c : ascii) :
  CommandHandler.command_char (lower_char c) = token_char c.
Proof. destruct c as [[] [] [] [] [] [] [] []]; reflexivity. Qed.

Lemma lower_char_newline (c : ascii) : lower_char c = newline <-> c = newline.
Proof.
  destruct c as [[] [] [] [] [] [] [] []]; vm_compute;
    split; intros H; solve [reflexivity | discriminate H].
Qed.

Lemma all_command_chars_lower (w : string) :
  all_chars CommandHandler.command_char (lower w) = all_chars token_char w.
Proof.
  induction w as [|c w IH]; simpl; [reflexivity|].
  now rewrite command_char_lower, IH.
Qed.

Lemma lower_is_empty (s : string) : lower s = "" <-> s = "".
Proof. destruct s; simpl; split; congruence. Qed.

Lemma lower_is_newline (s : string) :
  lower s = String newline "" <-> s = String newline "".
Proof.
  destruct s as [|c [|d s]]; simpl; split; intros H;
    try discriminate H.
  - injection H as H. apply (proj1 (lower_char_newline c)) in H.
    now rewrite H.
  - injection H as ->. reflexivity.
Qed.

(** A lower-cased text splits where the text itself does. *)
Lemma lower_split (s w tail : string) :
  lower s = w ++ tail ->
  exists w0 tail0, s = w0 ++ tail0 /\ lower w0 = w /\ lower tail0 = tail.
Proof.
  revert s. induction w as [|c w IH]; intros s H; simpl in H.
  - exists "", s. now repeat split.
  - destruct s as [|d s]; simpl in H; [discriminate H|].
    injection H as Hc Hs. apply IH in Hs as [w0 [tail0 [-> [Hw Htail]]]].
    exists (String d w0), tail0. simpl. now rewrite Hc, Hw.
Qed.

(** The pattern of [__init__], applied to the lower-cased token, and the
    pattern of the specification, applied to the token without regard to
    case, accept the same tokens. *)
Lemma lowered_command_valid (tok : string) :
  is_some (re_match CommandHandler.command_pattern (lower tok))
  = valid_token tok.
Proof.
  apply eq_true_iff_eq.
  assert (Hv : valid_token tok = true <->
               is_some (re_match token_pattern tok) = true).
  { unfold valid_token, is_some. now destruct (re_match token_pattern tok). }
  rewrite Hv. unfold CommandHandler.command_pattern, token_pattern.
  rewrite !class_pattern_matches. split.
  - intros [w [tail [Heq [Hw [Hlen Htail]]]]].
    apply lower_split in Heq as [w0 [tail0 [-> [<- <-]]]].
    exists w0, tail0. rewrite all_command_chars_lower in Hw.
    rewrite lower_length in Hlen.
    rewrite lower_is_empty, lower_is_newline in Htail. now repeat split.
  - intros [w [tail [-> [Hw [Hlen Htail]]]]].
    exists (lower w), (lower tail).
    rewrite lower_app, all_command_chars_lower, lower_length,
      lower_is_empty, lower_is_newline.
    now repeat split.
Qed.

(** In plain words: the valid tokens. *)
Lemma valid_token_iff (tok : string) :
  valid_token tok = true <->
  exists w tail,
    tok = w ++ tail /\ all_chars token_char w = true /\
    1 <= String.length w <= 32 /\ (tail = "" \/ tail = String newline "").
Proof.
  rewrite <- class_pattern_matches. unfold valid_token, token_pattern, is_some.
  now destruct (re_match _ tok).
Qed.

(** [validate] stops with the [ValueError] at the first command that the
    pattern does not match, and returns if there is none. *)
Lemma validate_raises (commands : list string) :
  (CommandHandler.validate commands = Ret tt /\
   forall comm, In comm commands ->
     re_match CommandHandler.command_pattern comm <> None) \/
  (CommandHandler.validate commands = Raise invalid_command /\
   exists comm, In comm commands /\
     re_match CommandHandler.command_pattern comm = None).
Proof.
  induction commands as [|comm rest IH]; simpl.
  - left. split; [reflexivity | intros comm []].
  - destruct (re_match CommandHandler.command_pattern comm) as [m|] eqn:Hm.
    + destruct IH as [[Hv Hall] | [Hv [bad [Hin Hbad]]]].
      * left. split; [assumption|].
        intros c [<- | Hc]; [now rewrite Hm | now apply Hall].
      * right. split; [assumption|]. exists bad. split; [now right | assumption].
    + right. split; [reflexivity|]. exists comm. split; [now left | assumption].
Qed.

End CommandNames.

(** On text whose code points are all below 256, where [\d] is the digits
    0 to 9 and no letter outside ASCII has its other case in a to z:
    [CommandHandler.__init__] raises, and then the [ValueError] of an
    invalid command, exactly when one of the configured command tokens
    does not match [^[a-z0-9_]{1,32}$] without regard to case; the command
    ["ab cd"] raises; and [check_update] never raises a [ValueError].
    Beyond that range the two sides part: see [Unicode]. *)
Lemma latin1_command_validation :
  forall (Filters_update_messages : Filter)
         (filter_and : Filter -> Filter -> Filter)
         (command : str_or_list) (callback : Callback)
         (filters : option Filter),
    let init := CommandHandler.init Filters_update_messages filter_and in
    ((exists e, init command callback filters = Raise e) <->
     (exists tok, In tok (strings_of command) /\ valid_token tok = false)) /\
    (forall e, init command callback filters = Raise e ->
               e = invalid_command) /\
    init (AStr "ab cd") callback filters = Raise invalid_command /\
    (forall self upd msg,
        CommandHandler.check_update self upd <> Raise (ValueError msg)).
Proof.
  intros msgs fand command callback filters init.
  assert (Hinit : init command callback filters =
                  (_ <- CommandHandler.validate (map lower (strings_of command)) ;;
                   Ret (CommandHandler.mk callback
                          (map lower (strings_of command))
                          match filters with
                          | Some f => fand msgs f
                          | None => msgs
                          end))).
  { unfold init, CommandHandler.init. now destruct command. }
  split; [|split; [|split]].
  - rewrite Hinit.
    destruct (validate_raises (map lower (strings_of command)))
      as [[Hv Hall] | [Hv [comm [Hin Hbad]]]]; rewrite Hv; simpl.
    + split; [intros [e He]; discriminate He|].
      intros [tok [Hin Hbad]]. exfalso.
      apply (Hall (lower tok)); [now apply in_map|].
      rewrite <- lowered_command_valid in Hbad.
      now destruct (re_match CommandHandler.command_pattern (lower tok)).
    + split; [intros _ | intros _; now eexists].
      apply in_map_iff in Hin as [tok [<- Hin]].
      exists tok. split; [assumption|].
      rewrite <- lowered_command_valid. now rewrite Hbad.
  - intros e. rewrite Hinit.
    destruct (validate_raises (map lower (strings_of command)))
      as [[Hv _] | [Hv _]]; rewrite Hv; simpl; intros H;
      [discriminate H | now injection H].
  - reflexivity.
  - intros self upd msg H.
    destruct (command_check_cases self upd)
      as [H' | [H' | [H' | [u [args [_ [_ H']]]]]]]; rewrite H' in H;
      try discriminate H.
    rewrite filter_stage_outcome in H. discriminate H.
Qed.

(** A valid command is kept lower-cased; a token that ends in a newline
    passes the pattern, whose [$] also matches before a final newline. *)
Example init_start :
  CommandHandler.init Fixtures.always Fixtures.both (AStr "Start")
    Fixtures.no_callback None
  = Ret (Fixtures.start_handler Fixtures.always).
Proof. reflexivity. Qed.

Example init_final_newline :
  exists h,
    CommandHandler.init Fixtures.always Fixtures.both
      (AStr (String "g" (String "o" (String newline EmptyString))))
      Fixtures.no_callback None = Ret h.
Proof. eexists. reflexivity. Qed.

Example init_too_long :
  CommandHandler.init Fixtures.always Fixtures.both
    (AStr "a23456789012345678901234567890123") Fixtures.no_callback None
  = Raise invalid_command.
Proof. reflexivity. Qed.

(** ** The check of the command names on the whole of [str] *)

Section UnicodeNames.

Variable p : N -> bool.

(** A text of characters of the class, short enough, passes the loop. *)
Lemma rep_class_all (s : Unicode.text) :
  forall fuel taken,
    forallb p s = true -> length s <= fuel -> 1 <= taken + length s ->
    Unicode.rep_class p fuel taken s = true.
Proof.
  induction s as [|c s IH]; intros fuel taken Hall Hlen Hone;
    simpl in Hall, Hlen, Hone.
  - assert (Nat.leb 1 taken = true) as Ht by (apply Nat.leb_le; lia).
    destruct fuel; cbn [Unicode.rep_class Unicode.at_eol]; rewrite Ht;
      reflexivity.
  - apply andb_prop in Hall as [Hc Hs].
    destruct fuel as [|fuel]; [lia|]. cbn [Unicode.rep_class]. rewrite Hc.
    rewrite (IH fuel (S taken) Hs); [reflexivity | lia | lia].
Qed.

(** A text that passes the loop is made of characters of the class,
    followed by nothing or by one newline. *)
Lemma rep_class_chars (s : Unicode.text) :
  forall fuel taken,
    Unicode.rep_class p fuel taken s = true ->
    forall d, In d s -> p d = true \/ d = 10%N.
Proof.
  induction s as [|c s IH]; intros fuel taken H d Hd; [destruct Hd|].
  assert (Heol : Unicode.at_eol (c :: s) = true -> c = 10%N /\ s = []).
  { destruct s; simpl; [|discriminate].
    intros Hc. apply N.eqb_eq in Hc. now split. }
  destruct fuel as [|fuel]; cbn [Unicode.rep_class orb] in H.
  - apply andb_prop in H as [_ H]. destruct (Heol H) as [-> ->].
    destruct Hd as [<- | []]. now right.
  - apply orb_prop in H as [H | H].
    + apply andb_prop in H as [Hc Hs].
      destruct Hd as [<- | Hd]; [now left | now apply (IH fuel (S taken))].
    + apply andb_prop in H as [_ H]. destruct (Heol H) as [-> ->].
      destruct Hd as [<- | []]. now right.
Qed.

End UnicodeNames.

(** C6.  The constructor does not raise for every command that fails to
    match [^[a-z0-9_]{1,32}$] without regard to case.  A command of 1 to 32
    characters of the class [[\da-z_]] that [str.lower] leaves as it is
    passes the check of [__init__], and the handler is built with it; if
    one of its characters, not a newline, is outside the class of the
    specification, the command does not match the pattern of the
    specification, and that character is a decimal digit other than 0 to
    9, which [\d] takes in and [0-9] does not.  U+0663 is such a
    command. *)
Theorem unicode_digit_command_accepted :
  forall (T : Unicode.tables) (Filters_update_messages : Filter)
         (filter_and : Filter -> Filter -> Filter)
         (callback : Callback) (filters : option Filter)
         (tok : Unicode.text) (d : N),
    Unicode.lower T tok = tok ->
    1 <= length tok <= 32 ->
    forallb (Unicode.CommandHandler.command_char T) tok = true ->
    In d tok ->
    unicode_token_char d = false ->
    d <> 10%N ->
    Unicode.CommandHandler.init T Filters_update_messages filter_and
      (Unicode.AStr tok) callback filters
    = Ret (Unicode.CommandHandler.mk callback [tok]
             match filters with
             | Some f => filter_and Filters_update_messages f
             | None => Filters_update_messages
             end) /\
    unicode_valid_token tok = false /\
    Unicode.is_decimal T d = true /\
    Unicode.in_range 48 57 d = false.
Proof.
  intros T msgs fand callback filters tok d Hlow Hlen Hall Hd Htok Hnl.
  assert (Hcls : Unicode.CommandHandler.command_char T d = true).
  { rewrite forallb_forall in Hall. now apply Hall. }
  assert (Hdec : Unicode.is_decimal T d = true /\
                 Unicode.in_range 48 57 d = false).
  { unfold Unicode.CommandHandler.command_char in Hcls.
    unfold unicode_token_char in Htok.
    destruct (Unicode.is_decimal T d), (Unicode.in_range 97 122 d),
      (Unicode.in_range 65 90 d), (Unicode.in_range 48 57 d), (d =? 95)%N;
      simpl in Hcls, Htok; try discriminate; now split. }
  split; [|split; [|exact Hdec]].
  - unfold Unicode.CommandHandler.init. rewrite Hlow. simpl.
    unfold Unicode.class_matches.
    rewrite (rep_class_all _ tok 32 0 Hall); [reflexivity | lia | lia].
  - unfold unicode_valid_token, Unicode.class_matches.
    destruct (Unicode.rep_class unicode_token_char 32 0 tok) eqn:H;
      [|reflexivity].
    destruct (rep_class_chars _ tok 32 0 H d Hd) as [Hc | Hc].
    + rewrite Hc in Htok. discriminate Htok.
    + now elim Hnl.
Qed.

Lemma unicode_digit_command_accepted_witness :
  Unicode.CommandHandler.init Fixtures.unicode_excerpt Fixtures.always
    Fixtures.both (Unicode.AStr Fixtures.arabic_indic_three)
    Fixtures.no_callback None
  = Ret (Unicode.CommandHandler.mk Fixtures.no_callback
           [Fixtures.arabic_indic_three] Fixtures.always) /\
  unicode_valid_token Fixtures.arabic_indic_three = false /\
  Unicode.is_decimal Fixtures.unicode_excerpt 1635 = true /\
  Unicode.in_range 48 57 1635 = false.
Proof.
  refine (unicode_digit_command_accepted Fixtures.unicode_excerpt
            Fixtures.always Fixtures.both Fixtures.no_callback None
            Fixtures.arabic_indic_three 1635%N
            eq_refl _ eq_refl (or_introl eq_refl) eq_refl _).
  - simpl. lia.
  - discriminate.
Defined.

(** In the other direction, U+0130, which [re.IGNORECASE] lets [a-z]
    match, is refused by the constructor: its lower case is [i] followed
    by U+0307, a combining mark. *)
Remark dotted_capital_i_refused :
  forall (T : Unicode.tables) (Filters_update_messages : Filter)
         (filter_and : Filter -> Filter -> Filter)
         (callback : Callback) (filters : option Filter),
    Unicode.lower T [304%N] = [105%N; 775%N] ->
    Unicode.is_decimal T 775 = false ->
    Unicode.CommandHandler.init T Filters_update_messages filter_and
      (Unicode.AStr [304%N]) callback filters = Raise invalid_command /\
    unicode_valid_token [304%N] = true.
Proof.
  intros T msgs fand callback filters Hlow Hdec.
  split; [|reflexivity].
  unfold Unicode.CommandHandler.init. rewrite Hlow.
  cbn [Unicode.CommandHandler.validate Unicode.class_matches
       Unicode.rep_class Unicode.at_eol].
  unfold Unicode.CommandHandler.command_char. rewrite Hdec.
  destruct (Unicode.is_decimal T 105); reflexivity.
Qed.

(** On the whole of [str] too, a command with a space is refused. *)
Example init_ab_cd_unicode :
  Unicode.CommandHandler.init Fixtures.unicode_excerpt Fixtures.always
    Fixtures.both (Unicode.AStr [97; 98; 32; 99; 100]%N)
    Fixtures.no_callback None
  = Raise invalid_command.
Proof. reflexivity. Qed.

(** ** [InlineActionHandler] *)

Section InlineAction.

Import InlineActionHandler.

Variable self : InlineActionHandler.t.
Variable dispatcher : Dispatcher.t.

(** The handler accepts exactly the callback queries whose data the
    registry resolves to the handler's action. *)
Lemma action_check_on_data (u : Update.t) (cq : CallbackQuery.t)
    (tok : string) :
  Update.callback_query u = Some cq ->
  CallbackQuery.data cq = Some tok ->
  tok <> EmptyString ->
  check_update self (AnUpdate u) dispatcher =
  Ret (PyBool (action_eqb (CallbackManager.peek_action
                    (Dispatcher.callback_manager dispatcher) tok)
                 (action_id self))).
Proof.
  intros Hq Hd Hne. unfold check_update. rewrite Hq, Hd.
  apply truthy_str_iff in Hne. now rewrite Hne.
Qed.

(** Without a chat, or without a record bound to the chat and the data,
    [collect_additional_context] raises and returns no context. *)
Lemma collect_without_record (u : Update.t) (cq : CallbackQuery.t)
    (ctx : CallbackContext.t) (check_result : value) :
  Update.callback_query u = Some cq ->
  (forall chat, Update.effective_chat u = Some chat ->
     CallbackManager.lookup_chat_bound_callback
       (Dispatcher.callback_manager dispatcher) (Chat.id chat)
       (CallbackQuery.data cq) = None) ->
  collect_additional_context self ctx u dispatcher check_result
  = Raise AttributeError.
Proof.
  intros Hq Hnone. unfold collect_additional_context.
  destruct (Update.effective_chat u) as [chat|]; simpl; [|reflexivity].
  rewrite Hq. simpl. now rewrite (Hnone chat eq_refl).
Qed.

End InlineAction.

(** C4.  When the registry resolves the data of a callback query to the
    handler's action, [check_update] accepts; if the record bound to the
    chat and the data is then missing, [collect_additional_context] raises
    an [AttributeError] instead of returning a context, so that the dispatch
    step ends with this error and the callback is not invoked, whatever the
    callback is; when the record exists, its payload becomes the view model
    of the context. *)
Theorem missing_record_is_reported :
  forall (self : InlineActionHandler.t)
         (dispatcher : Dispatcher.t)
         (u : Update.t) (cq : CallbackQuery.t) (tok : string)
         (ctx : CallbackContext.t),
    let manager := Dispatcher.callback_manager dispatcher in
    Update.callback_query u = Some cq ->
    CallbackQuery.data cq = Some tok ->
    tok <> EmptyString ->
    CallbackManager.peek_action manager tok
      = Some (InlineActionHandler.action_id self) ->
    InlineActionHandler.check_update self (AnUpdate u) dispatcher
      = Ret (PyBool true) /\
    ((forall chat, Update.effective_chat u = Some chat ->
        CallbackManager.lookup_chat_bound_callback manager (Chat.id chat)
          (Some tok) = None) ->
     forall check_result,
       InlineActionHandler.collect_additional_context self ctx u dispatcher
         check_result = Raise AttributeError /\
       Handler.handle_update self u dispatcher check_result ctx
         = Raise AttributeError) /\
    (forall chat item,
        Update.effective_chat u = Some chat ->
        CallbackManager.lookup_chat_bound_callback manager (Chat.id chat)
          (Some tok) = Some item ->
        forall check_result,
          InlineActionHandler.collect_additional_context self ctx u
            dispatcher check_result
          = Ret (CallbackContext.set_view_model ctx
                   (CallbackManager.model_data item))).
Proof.
  intros self dispatcher u cq tok ctx manager Hq Hd Hne Hpeek.
  split; [|split].
  - rewrite (action_check_on_data self dispatcher u cq tok Hq Hd Hne).
    fold manager. rewrite Hpeek. simpl. now rewrite String.eqb_refl.
  - intros Hnone check_result.
    assert (Hraise :
      InlineActionHandler.collect_additional_context self ctx u dispatcher
        check_result = Raise AttributeError).
    { apply (collect_without_record self dispatcher u cq ctx check_result Hq).
      rewrite Hd. exact Hnone. }
    split; [exact Hraise|].
    unfold Handler.handle_update. simpl. now rewrite Hraise.
  - intros chat item Hchat Hitem check_result.
    unfold InlineActionHandler.collect_additional_context.
    rewrite Hchat, Hq. simpl. rewrite Hd. fold manager. now rewrite Hitem.
Qed.

Lemma missing_record_is_reported_witness :
  InlineActionHandler.check_update Fixtures.action_handler
    (AnUpdate (Fixtures.callback_update "tok123")) Fixtures.desynced
  = Ret (PyBool true) /\
  Handler.handle_update Fixtures.action_handler
    (Fixtures.callback_update "tok123") Fixtures.desynced (PyBool true)
    CallbackContext.fresh
  = Raise AttributeError.
Proof.
  destruct (missing_record_is_reported Fixtures.action_handler
              Fixtures.desynced (Fixtures.callback_update "tok123")
              (CallbackQuery.mk (Some "tok123"%string)) "tok123"%string
              CallbackContext.fresh eq_refl eq_refl)
    as [Hacc [Hmiss _]].
  - discriminate.
  - reflexivity.
  - split; [exact Hacc|].
    exact (proj2 (Hmiss (fun _ _ => eq_refl) (PyBool true))).
Defined.

(** ** [PrefixHandler.__init__] *)

Section PrefixInit.

Local Open Scope string_scope.

Variable Filters_update_messages : Filter.
Variable filter_and : Filter -> Filter -> Filter.

(** The parent constructor accepts the placeholder command. *)
Lemma init_nocommand (callback : Callback) (filters : option Filter) :
  exists parent,
    CommandHandler.init Filters_update_messages filter_and (AStr "nocommand")
      callback filters = Ret parent /\
    CommandHandler.callback parent = callback.
Proof. eexists. split; reflexivity. Qed.

Lemma pairs_as_product (f : string -> string -> string)
    (prefixes commands : list string) :
  flat_map (fun x => map (fun y => f x y) commands) prefixes =
  map (fun pc => f (fst pc) (snd pc)) (list_prod prefixes commands).
Proof.
  induction prefixes as [|p prefixes IH]; simpl; [reflexivity|].
  now rewrite map_app, map_map, IH.
Qed.

(** What [PrefixHandler.__init__] builds: it always returns, and the
    command set is the product of the prefixes and the commands. *)
Lemma prefix_init_returns (prefix command : str_or_list)
    (callback : Callback) (filters : option Filter) :
  exists h,
    PrefixHandler.init Filters_update_messages filter_and prefix command
      callback filters = Ret h /\
    PrefixHandler.command h =
      prefixed_commands (strings_of prefix) (strings_of command) /\
    PrefixHandler.callback h = callback.
Proof.
  unfold PrefixHandler.init.
  destruct (init_nocommand callback filters) as [parent [-> Hcb]]. simpl.
  eexists. split; [reflexivity|]. split; [|exact Hcb].
  unfold PrefixHandler.command, prefixed_commands. simpl.
  rewrite pairs_as_product.
  destruct prefix as [p|ps], command as [c|cs]; simpl;
    rewrite ?lower_idem; try reflexivity.
  - induction cs as [|c cs IH]; simpl; [reflexivity|].
    rewrite lower_idem. f_equal. exact IH.
  - induction ps as [|p ps IH]; simpl; [reflexivity|].
    rewrite lower_idem. f_equal. exact IH.
Qed.

Lemma in_prefixed_commands (prefixes commands : list string) (x : string) :
  In x (prefixed_commands prefixes commands) <->
  exists p c, In p prefixes /\ In c commands /\ x = lower p ++ lower c.
Proof.
  unfold prefixed_commands. rewrite in_map_iff. split.
  - intros [[p c] [<- Hin]]. apply in_prod_iff in Hin as [Hp Hc].
    now exists p, c.
  - intros [p [c [Hp [Hc ->]]]]. exists (p, c).
    split; [reflexivity | now apply in_prod_iff].
Qed.

End PrefixInit.

(** C5 does not hold as stated: a first token in the command set is not
    enough for the update to be accepted, the filters of the handler must
    hold as well; ["!test"] under filters that reject gets [False]. *)
Lemma prefix_accept_needs_filters :
  ~ (forall (self : PrefixHandler.t) (u : Update.t) (message : Message.t)
            (text tok : string),
        Update.effective_message u = Some message ->
        Message.text message = Some text ->
        first_token text = Some tok ->
        In (lower tok) (PrefixHandler.command self) ->
        accepts (PrefixHandler.check_update self (AnUpdate u))).
Proof.
  intros H.
  destruct (H (Fixtures.test_handler Fixtures.never)
              (Fixtures.text_update "!test") _ _ "!test"%string
              eq_refl eq_refl eq_refl (or_introl eq_refl))
    as [v [Hv [_ Hrej]]].
  injection Hv as <-. now elim Hrej.
Qed.

(** C5, amended.  [PrefixHandler.__init__] builds the command set out of
    every pair of a prefix and a command, lower-cased and concatenated.
    [check_update] recognises a message with text (it returns something
    other than [None]) exactly when the first white-space-delimited token
    of the text, lower-cased, is in that set, whatever the entities and the
    bot's name are; it accepts the update exactly when, in addition, the
    filters of the handler hold on it.  With the prefixes [!] and [#], the
    command [test] and filters that hold, ["!test"] and ["#test"] are
    matched, ["test"] and ["!help"] are not. *)
Theorem prefix_recognition :
  (forall (Filters_update_messages : Filter)
          (filter_and : Filter -> Filter -> Filter)
          (prefix command : str_or_list) (callback : Callback)
          (filters : option Filter),
      exists h,
        PrefixHandler.init Filters_update_messages filter_and prefix command
          callback filters = Ret h /\
        PrefixHandler.command h =
          prefixed_commands (strings_of prefix) (strings_of command) /\
        forall x, In x (PrefixHandler.command h) <->
                  exists p c, In p (strings_of prefix) /\
                              In c (strings_of command) /\
                              x = (lower p ++ lower c)%string) /\
  (forall (self : PrefixHandler.t) (upd : pyobject),
      recognised (PrefixHandler.check_update self upd) <->
      exists u message text tok,
        upd = AnUpdate u /\
        Update.effective_message u = Some message /\
        Message.text message = Some text /\
        first_token text = Some tok /\
        In (lower tok) (PrefixHandler.command self)) /\
  (forall (self : PrefixHandler.t) (u : Update.t),
      accepts (PrefixHandler.check_update self (AnUpdate u)) <->
      (exists message text tok,
         Update.effective_message u = Some message /\
         Message.text message = Some text /\
         first_token text = Some tok /\
         In (lower tok) (PrefixHandler.command self)) /\
      truthy (PrefixHandler.filters self u) = true) /\
  (forall (self : PrefixHandler.t) (u : Update.t) (message : Message.t)
          (text tok : string),
      Update.effective_message u = Some message ->
      Message.text message = Some text ->
      first_token text = Some tok ->
      In (lower tok) (PrefixHandler.command self) ->
      truthy (PrefixHandler.filters self u) = false ->
      PrefixHandler.check_update self (AnUpdate u) = Ret Rejected) /\
  PrefixHandler.init Fixtures.always Fixtures.both
    (AList ["!"%string; "#"%string]) (AStr "test") Fixtures.no_callback None
    = Ret (Fixtures.test_handler Fixtures.always) /\
  PrefixHandler.check_update (Fixtures.test_handler Fixtures.always)
    (AnUpdate (Fixtures.text_update "!test")) = Ret (Matched [] (PyBool true)) /\
  PrefixHandler.check_update (Fixtures.test_handler Fixtures.always)
    (AnUpdate (Fixtures.text_update "#test")) = Ret (Matched [] (PyBool true)) /\
  PrefixHandler.check_update (Fixtures.test_handler Fixtures.always)
    (AnUpdate (Fixtures.text_update "test")) = Ret NoMatch /\
  PrefixHandler.check_update (Fixtures.test_handler Fixtures.always)
    (AnUpdate (Fixtures.text_update "!help")) = Ret NoMatch.
Proof.
  split; [|split; [|split; [|split; [|repeat split]]]].
  - intros msgs fand prefix command callback filters.
    destruct (prefix_init_returns msgs fand prefix command callback filters)
      as [h [Hinit [Hcmd _]]].
    exists h. split; [assumption|]. split; [assumption|].
    intros x. rewrite Hcmd. apply in_prefixed_commands.
  - intros self upd. split.
    + intros [v [Hv Hnone]].
      destruct (prefix_check_cases self upd)
        as [H | [H | [u [args [-> Hshape]]]]].
      * rewrite H in Hv. discriminate Hv.
      * rewrite H in Hv. injection Hv as <-. now elim Hnone.
      * destruct Hshape as [message [text [tok [Hm [Ht [Htok [Hin _]]]]]]].
        now exists u, message, text, tok.
    + intros [u [message [text [tok [-> [Hm [Ht [Htok Hin]]]]]]]].
      rewrite (prefix_check_on_shape self u (tail_from_1 (split text))).
      * eexists. split; [reflexivity|].
        destruct (truthy _); discriminate.
      * now exists message, text, tok.
  - intros self u. split.
    + intros Hacc.
      destruct (prefix_check_cases self (AnUpdate u))
        as [H | [H | [u' [args [Hu Hshape]]]]].
      * rewrite H in Hacc. destruct Hacc as [v [Hv _]]. discriminate Hv.
      * rewrite H in Hacc. destruct Hacc as [v [[= <-] [Hnone _]]].
        now elim Hnone.
      * injection Hu as <-.
        rewrite (prefix_check_on_shape self u args Hshape) in Hacc.
        apply accepts_filter_outcome in Hacc.
        destruct Hshape as [message [text [tok [Hm [Ht [Htok [Hin _]]]]]]].
        split; [now exists message, text, tok | assumption].
    + intros [[message [text [tok [Hm [Ht [Htok Hin]]]]]] Hf].
      rewrite (prefix_check_on_shape self u (tail_from_1 (split text))).
      * now apply accepts_filter_outcome.
      * now exists message, text, tok.
  - intros self u message text tok Hm Ht Htok Hin Hf.
    rewrite (prefix_check_on_shape self u (tail_from_1 (split text))).
    + now rewrite Hf.
    + now exists message, text, tok.
Qed.

Lemma prefix_recognition_witness :
  accepts (PrefixHandler.check_update (Fixtures.test_handler Fixtures.always)
             (AnUpdate (Fixtures.text_update "  #TEST  a b"))) /\
  PrefixHandler.check_update (Fixtures.test_handler Fixtures.never)
    (AnUpdate (Fixtures.text_update "  #TEST  a b")) = Ret Rejected.
Proof.
  split.
  - apply (proj2 (proj1 (proj2 (proj2 prefix_recognition))
                    (Fixtures.test_handler Fixtures.always)
                    (Fixtures.text_update "  #TEST  a b"))).
    split; [|reflexivity].
    eexists; eexists; exists "#TEST"%string.
    repeat (split; [reflexivity|]).
    simpl. right. left. reflexivity.
  - refine (proj1 (proj2 (proj2 (proj2 prefix_recognition)))
              (Fixtures.test_handler Fixtures.never)
              (Fixtures.text_update "  #TEST  a b") _ _ "#TEST"%string
              eq_refl eq_refl eq_refl _ eq_refl).
    simpl. right. left. reflexivity.
Defined.

(** ** The args of a command *)

Section Args.

Local Open Scope string_scope.

Lemma collect_sets_args (self : CommandHandler.t) (ctx : CallbackContext.t)
    (u : Update.t) (dispatcher : Dispatcher.t) (args : list string)
    (filter_result : value) :
  exists ctx',
    CommandHandler.collect_additional_context self ctx u dispatcher
      (Matched args filter_result) = Ret ctx' /\
    CallbackContext.args ctx' = Some (str_list args).
Proof.
  unfold CommandHandler.collect_additional_context, Matched. simpl.
  destruct filter_result; eexists; split; reflexivity.
Qed.

End Args.

(** C8.  An update that [CommandHandler.check_update] accepts yields, as
    args, the tokens of the message text after the first one, where the
    tokens are the pieces between runs of white space: splitting is not
    affected by how many white-space characters separate two pieces, a
    piece without white space is one token, and no token is empty.
    ['/start'] yields no args and ['/start hello world'] yields [hello] and
    [world]; [collect_additional_context] stores this list in
    [context.args]. *)
Theorem command_args :
  (forall (self : CommandHandler.t) (u : Update.t) (v : value),
      CommandHandler.check_update self (AnUpdate u) = Ret v ->
      v <> NoMatch -> v <> Rejected ->
      exists message text,
        Update.effective_message u = Some message /\
        Message.text message = Some text /\
        v = Matched (tail_from_1 (split text)) (CommandHandler.filters self u) /\
        forall ctx dispatcher, exists ctx',
          CommandHandler.collect_additional_context self ctx u dispatcher v
            = Ret ctx' /\
          CallbackContext.args ctx' = Some (str_list (tail_from_1 (split text)))) /\
  (forall (a b : string) (w : ascii),
      isspace w = true ->
      split (a ++ String w b) = split a ++ split b) /\
  (forall s : string,
      no_space s = true -> s <> EmptyString -> split s = [s]) /\
  split EmptyString = [] /\
  (forall s : string,
      Forall (fun t => t <> EmptyString /\ no_space t = true) (split s)) /\
  CommandHandler.check_update (Fixtures.start_handler Fixtures.always)
    (AnUpdate (Fixtures.command_update "/start" 6))
    = Ret (Matched [] (PyBool true)) /\
  CommandHandler.check_update (Fixtures.start_handler Fixtures.always)
    (AnUpdate (Fixtures.command_update "/start hello world" 6))
    = Ret (Matched ["hello"%string; "world"%string] (PyBool true)).
Proof.
  split; [|split; [|split; [|split; [|split; [|split]]]]];
    try reflexivity.
  - intros self u v Hv Hnone Hrej.
    destruct (command_check_cases self (AnUpdate u))
      as [H | [H | [H | [u' [args [Hu [Hshape H]]]]]]];
      rewrite H in Hv; try discriminate Hv.
    + injection Hv as <-. now elim Hnone.
    + injection Hu as <-. rewrite filter_stage_outcome in Hv.
      injection Hv as <-.
      destruct Hshape as [message [text [e [es [bot
          [Hm [Ht [_ [_ [_ [_ [_ [_ ->]]]]]]]]]]]]].
      exists message, text. split; [assumption|]. split; [assumption|].
      destruct (truthy (CommandHandler.filters self u)); [|now elim Hrej].
      split; [reflexivity|]. intros ctx dispatcher. apply collect_sets_args.
  - intros a b w Hw. now apply split_at_space.
  - intros s Hs Hne. now apply split_word.
  - apply split_tokens.
Qed.

Lemma command_args_witness :
  exists ctx',
    CommandHandler.collect_additional_context
      (Fixtures.start_handler Fixtures.always) CallbackContext.fresh
      (Fixtures.command_update "/start   hello  world " 6) Fixtures.desynced
      (Matched ["hello"%string; "world"%string] (PyBool true)) = Ret ctx' /\
    CallbackContext.args ctx'
      = Some (str_list ["hello"%string; "world"%string]).
Proof.
  destruct (proj1 command_args (Fixtures.start_handler Fixtures.always)
              (Fixtures.command_update "/start   hello  world " 6)
              (Matched ["hello"%string; "world"%string] (PyBool true))
              eq_refl ltac:(discriminate) ltac:(discriminate))
    as [message [text [Hm [Ht [_ Hctx]]]]].
  injection Hm as <-. injection Ht as <-.
  exact (Hctx CallbackContext.fresh Fixtures.desynced).
Defined.

(** ** A message of white space only *)

Section WhiteSpaceOnly.

Local Open Scope string_scope.

(** A text of white space only has no token, and [text_list[0]] is out
    of range. *)
Lemma prefix_check_on_blank (self : PrefixHandler.t) (u : Update.t)
    (message : Message.t) (text : string) :
  Update.effective_message u = Some message ->
  Message.text message = Some text ->
  text <> "" ->
  all_chars isspace text = true ->
  PrefixHandler.check_update self (AnUpdate u) = Raise IndexError.
Proof.
  intros Hm Ht Hne Hws.
  rewrite (prefix_check_on_text self u message text Hm Ht).
  apply truthy_str_iff in Hne. apply first_token_none in Hws.
  now rewrite Hne, Hws.
Qed.

End WhiteSpaceOnly.

(** C9.  On a message whose text is one space, [PrefixHandler.check_update]
    raises an [IndexError]: the text is truthy, its split is empty, and the
    first token is read all the same. *)
Theorem prefix_blank_text_raises :
  truthy_str " " = true /\
  split " " = [] /\
  PrefixHandler.check_update (Fixtures.test_handler Fixtures.always)
    (AnUpdate (Fixtures.text_update " ")) = Raise IndexError.
Proof. repeat split. Qed.

(** C10.  [PrefixHandler.__init__] returns a handler for all prefixes and
    commands: the parent constructor is given the valid placeholder
    [nocommand], and the command set that replaces it is not validated.
    Commands that [CommandHandler.__init__] refuses, such as one with a
    space or one of 33 characters, are accepted. *)
Theorem prefix_init_never_raises :
  forall (Filters_update_messages : Filter)
         (filter_and : Filter -> Filter -> Filter)
         (callback : Callback) (filters : option Filter),
    (forall prefix command : str_or_list,
        exists h,
          PrefixHandler.init Filters_update_messages filter_and prefix command
            callback filters = Ret h /\
          PrefixHandler.command h =
            prefixed_commands (strings_of prefix) (strings_of command)) /\
    (exists parent,
        CommandHandler.init Filters_update_messages filter_and
          (AStr "nocommand") callback filters = Ret parent) /\
    CommandHandler.init Filters_update_messages filter_and
      (AList ["ab cd"%string]) callback filters = Raise invalid_command /\
    CommandHandler.init Filters_update_messages filter_and
      (AList ["a23456789012345678901234567890123"%string]) callback filters
      = Raise invalid_command /\
    exists h,
      PrefixHandler.init Filters_update_messages filter_and (AStr "!")
        (AList ["ab cd"%string; "a23456789012345678901234567890123"%string])
        callback filters = Ret h /\
      PrefixHandler.command h =
        ["!ab cd"%string; "!a23456789012345678901234567890123"%string].
Proof.
  intros msgs fand callback filters.
  split; [|split; [|split; [|split]]]; try reflexivity.
  - intros prefix command.
    destruct (prefix_init_returns msgs fand prefix command callback filters)
      as [h [Hinit [Hcmd _]]].
    now exists h.
  - destruct (init_nocommand msgs fand callback filters) as [parent [H _]].
    now exists parent.
  - eexists. split; reflexivity.
Qed.

(** * Further properties of the handlers *)

(** Closes a goal [check_update ... = Raise _ -> False] in a case in which
    [check_update] falls through one of its tests. *)
Ltac falls_through_in :=
  unfold CommandHandler.check_update, CommandHandler.text_of,
    CommandHandler.bot_of, PrefixHandler.check_update;
  repeat (match goal with
          | H : _ = _ |- _ => rewrite H
          end; simpl);
  discriminate.

(** ** [CommandHandler]: construction and recognition *)

Section CommandConstruction.

Local Open Scope string_scope.

Variable Filters_update_messages : Filter.
Variable filter_and : Filter -> Filter -> Filter.

(** The constructor, with both forms of the command argument read as a
    list. *)
Lemma command_init_unfold (command : str_or_list) (callback : Callback)
    (filters : option Filter) :
  CommandHandler.init Filters_update_messages filter_and command callback
    filters =
  (_ <- CommandHandler.validate (map lower (strings_of command)) ;;
   Ret (CommandHandler.mk callback (map lower (strings_of command))
          match filters with
          | Some f => filter_and Filters_update_messages f
          | None => Filters_update_messages
          end)).
Proof. unfold CommandHandler.init. now destruct command. Qed.

Lemma command_init_ret (command : str_or_list) (callback : Callback)
    (filters : option Filter) (h : CommandHandler.t) :
  CommandHandler.init Filters_update_messages filter_and command callback
    filters = Ret h ->
  h = CommandHandler.mk callback (map lower (strings_of command))
        match filters with
        | Some f => filter_and Filters_update_messages f
        | None => Filters_update_messages
        end /\
  forall c, In c (map lower (strings_of command)) ->
            re_match CommandHandler.command_pattern c <> None.
Proof.
  rewrite command_init_unfold.
  destruct (validate_raises (map lower (strings_of command)))
    as [[Hv Hall] | [Hv _]]; rewrite Hv; simpl; intros H;
    [|discriminate H].
  injection H as <-. now split.
Qed.

(** A character of the class of command names is neither white space nor
    the [@] sign. *)
Lemma command_char_plain (c : ascii) :
  CommandHandler.command_char c = true ->
  negb (isspace c) = true /\ differs_from "@" c = true.
Proof.
  destruct c as [[] [] [] [] [] [] [] []]; vm_compute;
    intros H; solve [discriminate H | now split].
Qed.

Lemma command_chars_plain (w : string) :
  all_chars CommandHandler.command_char w = true ->
  no_space w = true /\ no_at_sign w = true.
Proof.
  unfold no_space, no_at_sign.
  induction w as [|c w IH]; simpl; [now split|].
  intros H. apply andb_prop in H as [Hc Hw].
  destruct (command_char_plain c Hc) as [-> ->].
  destruct (IH Hw) as [-> ->]. now split.
Qed.

End CommandConstruction.

(** X1.  When [CommandHandler.__init__] returns, the handler holds the
    callback, the filters ([Filters.update.messages], combined with the
    given filters when there are some) and the lower-cased commands in
    their order; every stored command is left as it is by [lower] and
    consists of 1 to 32 characters, none of them white space or [@],
    possibly followed by one newline. *)
Theorem command_init_postcondition :
  forall (Filters_update_messages : Filter)
         (filter_and : Filter -> Filter -> Filter)
         (command : str_or_list) (callback : Callback)
         (filters : option Filter) (h : CommandHandler.t),
    CommandHandler.init Filters_update_messages filter_and command callback
      filters = Ret h ->
    CommandHandler.command h = map lower (strings_of command) /\
    CommandHandler.callback h = callback /\
    CommandHandler.filters h =
      match filters with
      | Some f => filter_and Filters_update_messages f
      | None => Filters_update_messages
      end /\
    Forall (fun c =>
              lower c = c /\
              exists w tail,
                c = (w ++ tail)%string /\
                no_space w = true /\ no_at_sign w = true /\
                1 <= String.length w <= 32 /\
                (tail = EmptyString \/ tail = String newline EmptyString))
           (CommandHandler.command h).
Proof.
  intros msgs fand command callback filters h Hinit.
  apply command_init_ret in Hinit as [-> Hall]. simpl.
  repeat (split; [reflexivity|]).
  apply Forall_forall. intros c Hc. split.
  - apply in_map_iff in Hc as [tok [<- _]]. apply lower_idem.
  - specialize (Hall c Hc).
    destruct (proj1 (class_pattern_matches CommandHandler.command_char c))
      as [w [tail [Heq [Hw [Hlen Htail]]]]].
    { fold CommandHandler.command_pattern.
      now destruct (re_match CommandHandler.command_pattern c). }
    exists w, tail. destruct (command_chars_plain w Hw) as [Hsp Hat].
    now repeat split.
Qed.

Lemma command_init_postcondition_witness :
  CommandHandler.command (Fixtures.start_handler Fixtures.always)
  = map lower (strings_of (AList ["Start"%string])).
Proof.
  exact (proj1 (command_init_postcondition Fixtures.always Fixtures.both
                  (AList ["Start"%string]) Fixtures.no_callback None
                  (Fixtures.start_handler Fixtures.always) eq_refl)).
Defined.

(** X2.  A handler built by [CommandHandler.__init__] recognises a message
    that starts with a bot-command entity exactly when the command name
    equals one of the configured tokens up to case and the command
    addresses the bot of the message: the case of the configured token and
    the case of the name in the text are both immaterial. *)
Theorem command_recognition_after_init :
  forall (Filters_update_messages : Filter)
         (filter_and : Filter -> Filter -> Filter)
         (command : str_or_list) (callback : Callback)
         (filters : option Filter) (h : CommandHandler.t)
         (u : Update.t) (message : Message.t) (text : string)
         (e : MessageEntity.t) (es : list MessageEntity.t),
    CommandHandler.init Filters_update_messages filter_and command callback
      filters = Ret h ->
    Update.effective_message u = Some message ->
    Message.text message = Some text ->
    Message.entities message = e :: es ->
    MessageEntity.type e = MessageEntity.BOT_COMMAND ->
    MessageEntity.offset e = 0%Z ->
    let cmd := slice text 1 (MessageEntity.length e) in
    recognised (CommandHandler.check_update h (AnUpdate u)) <->
    (exists tok, In tok (strings_of command) /\
                 lower tok = lower (command_name cmd)) /\
    (exists bot, Message.bot message = Some bot /\
                 addresses cmd (Bot.username bot) = true).
Proof.
  intros msgs fand command callback filters h u message text e es
         Hinit Hm Ht He Hty Hoff cmd.
  apply command_init_ret in Hinit as [Hh _].
  assert (Hcmds : CommandHandler.command h = map lower (strings_of command))
    by now rewrite Hh.
  destruct (Message.bot message) as [bot|] eqn:Hb.
  - rewrite (command_check_on_entity h u message text e es bot
               Hm Ht He Hty Hoff Hb).
    fold cmd. rewrite Hcmds.
    assert (Hin : str_in (lower (command_name cmd))
                    (map lower (strings_of command)) = true <->
                  exists tok, In tok (strings_of command) /\
                              lower tok = lower (command_name cmd)).
    { rewrite str_in_In, in_map_iff. split; intros [tok [H1 H2]];
        exists tok; tauto. }
    destruct (str_in _ _) eqn:Hs; simpl.
    + destruct (addresses cmd _) eqn:Ha.
      * split.
        -- intros _. split; [now apply Hin|]. now exists bot.
        -- intros _. rewrite filter_stage_outcome. eexists.
           split; [reflexivity|]. destruct (truthy _); discriminate.
      * split.
        -- intros [v [Hv Hnone]]. injection Hv as <-. now elim Hnone.
        -- intros [_ [b [[= <-] H]]]. rewrite Ha in H. discriminate H.
    + split.
      * intros [v [Hv Hnone]]. injection Hv as <-. now elim Hnone.
      * intros [Htok _]. apply Hin in Htok. discriminate Htok.
  - assert (Hchk : CommandHandler.check_update h (AnUpdate u)
                   = Raise AttributeError).
    { apply String.eqb_eq in Hty. apply Z.eqb_eq in Hoff. falls_through. }
    rewrite Hchk. split.
    + intros [v [Hv _]]. discriminate Hv.
    + intros [_ [b [Hb' _]]]. discriminate Hb'.
Qed.

Lemma command_recognition_after_init_witness :
  recognised (CommandHandler.check_update
                (Fixtures.start_handler Fixtures.always)
                (AnUpdate (Fixtures.command_update "/START now" 6))).
Proof.
  apply (proj2 (command_recognition_after_init Fixtures.always Fixtures.both
                  (AStr "Start") Fixtures.no_callback None
                  (Fixtures.start_handler Fixtures.always)
                  (Fixtures.command_update "/START now" 6) _ _ _ _
                  eq_refl eq_refl eq_refl eq_refl eq_refl eq_refl)).
  split.
  - exists "Start"%string. split; [left; reflexivity | reflexivity].
  - eexists. split; reflexivity.
Defined.

(** X3.  [CommandHandler.check_update] raises in two situations only, both
    on a message whose first entity is a bot command at offset 0: the
    message has no text, and the error is a [TypeError]; or it has a text
    but no bot, and the error is an [AttributeError].  An entity length of
    any size or sign never raises. *)
Theorem command_check_raises_iff :
  forall (self : CommandHandler.t) (upd : pyobject) (err : exn),
    CommandHandler.check_update self upd = Raise err <->
    exists u message e es,
      upd = AnUpdate u /\
      Update.effective_message u = Some message /\
      Message.entities message = e :: es /\
      MessageEntity.type e = MessageEntity.BOT_COMMAND /\
      MessageEntity.offset e = 0%Z /\
      (Message.text message = None /\ err = TypeError \/
       Message.text message <> None /\ Message.bot message = None /\
       err = AttributeError).
Proof.
  intros self upd err. split.
  - intros Hraise.
    destruct upd as [u|]; [|discriminate Hraise].
    destruct (Update.effective_message u) as [message|] eqn:Hm;
      [|exfalso; revert Hraise; falls_through_in].
    destruct (Message.entities message) as [|e es] eqn:He;
      [exfalso; revert Hraise; falls_through_in|].
    destruct (String.eqb (MessageEntity.type e) MessageEntity.BOT_COMMAND)
      eqn:Hty; [|exfalso; revert Hraise; falls_through_in].
    destruct (MessageEntity.offset e =? 0)%Z eqn:Hoff;
      [|exfalso; revert Hraise; falls_through_in].
    destruct (Message.text message) as [text|] eqn:Ht;
      [destruct (Message.bot message) as [bot|] eqn:Hb|].
    + exfalso. apply String.eqb_eq in Hty. apply Z.eqb_eq in Hoff.
      rewrite (command_check_on_entity self u message text e es bot
                 Hm Ht He Hty Hoff Hb) in Hraise.
      rewrite filter_stage_outcome in Hraise.
      destruct (_ && _); discriminate Hraise.
    + assert (Hchk : CommandHandler.check_update self (AnUpdate u)
                     = Raise AttributeError) by falls_through.
      rewrite Hchk in Hraise. injection Hraise as <-.
      apply String.eqb_eq in Hty. apply Z.eqb_eq in Hoff.
      exists u, message, e, es. repeat (split; [assumption || reflexivity|]).
      right. rewrite Ht. split; [discriminate|]. now split.
    + assert (Hchk : CommandHandler.check_update self (AnUpdate u)
                     = Raise TypeError) by falls_through.
      rewrite Hchk in Hraise. injection Hraise as <-.
      apply String.eqb_eq in Hty. apply Z.eqb_eq in Hoff.
      exists u, message, e, es. repeat (split; [assumption || reflexivity|]).
      left. now split.
  - intros [u [message [e [es [-> [Hm [He [Hty [Hoff Hcase]]]]]]]]].
    apply String.eqb_eq in Hty. apply Z.eqb_eq in Hoff.
    destruct Hcase as [[Ht ->] | [Ht [Hb ->]]].
    + falls_through.
    + destruct (Message.text message) as [text|] eqn:Ht';
        [|now elim Ht]. falls_through.
Qed.

Lemma command_check_raises_iff_witness :
  CommandHandler.check_update (Fixtures.start_handler Fixtures.always)
    (AnUpdate
       (Update.mk
          (Some (Message.mk (Some "/start"%string)
                   [MessageEntity.mk MessageEntity.BOT_COMMAND 0 6] None))
          None None None))
  = Raise AttributeError /\
  CommandHandler.check_update (Fixtures.start_handler Fixtures.always)
    (AnUpdate
       (Update.mk
          (Some (Message.mk None
                   [MessageEntity.mk MessageEntity.BOT_COMMAND 0 6]
                   (Some (Bot.mk "botname"))))
          None None None))
  = Raise TypeError.
Proof.
  split.
  - apply (proj2 (command_check_raises_iff
                    (Fixtures.start_handler Fixtures.always) _
                    AttributeError)).
    eexists; eexists; eexists; eexists.
    repeat (split; [reflexivity|]).
    right. split; [discriminate|]. split; reflexivity.
  - apply (proj2 (command_check_raises_iff
                    (Fixtures.start_handler Fixtures.always) _ TypeError)).
    eexists; eexists; eexists; eexists.
    repeat (split; [reflexivity|]).
    left. split; reflexivity.
Defined.

(** X4.  Only the first entity of the message is looked at: when it is not
    a bot command at offset 0, [check_update] returns [None], whatever the
    other entities are, a bot command at offset 0 among them included. *)
Theorem command_first_entity_only :
  forall (self : CommandHandler.t) (u : Update.t) (message : Message.t)
         (e : MessageEntity.t) (es : list MessageEntity.t),
    Update.effective_message u = Some message ->
    Message.entities message = e :: es ->
    MessageEntity.type e <> MessageEntity.BOT_COMMAND \/
    MessageEntity.offset e <> 0%Z ->
    CommandHandler.check_update self (AnUpdate u) = Ret NoMatch.
Proof.
  intros self u message e es Hm He Hfirst.
  unfold CommandHandler.check_update. rewrite Hm, He.
  destruct Hfirst as [Hty | Hoff].
  - apply String.eqb_neq in Hty. now rewrite Hty.
  - apply Z.eqb_neq in Hoff. rewrite Hoff. now rewrite andb_false_r.
Qed.

Lemma command_first_entity_only_witness :
  CommandHandler.check_update (Fixtures.start_handler Fixtures.always)
    (AnUpdate
       (Update.mk
          (Some (Message.mk (Some "/start"%string)
                   [MessageEntity.mk "bold" 0 6;
                    MessageEntity.mk MessageEntity.BOT_COMMAND 0 6]
                   (Some (Bot.mk "botname"))))
          None None None))
  = Ret NoMatch.
Proof.
  refine (command_first_entity_only
            (Fixtures.start_handler Fixtures.always)
            (Update.mk
               (Some (Message.mk (Some "/start"%string)
                        [MessageEntity.mk "bold" 0 6;
                         MessageEntity.mk MessageEntity.BOT_COMMAND 0 6]
                        (Some (Bot.mk "botname"))))
               None None None)
            _ _ _ eq_refl eq_refl _).
  left. discriminate.
Defined.

(** ** The args of both command handlers *)

Section Tokens.

Local Open Scope string_scope.

Lemma map_PyStr_injective (a b : list string) :
  map PyStr a = map PyStr b -> a = b.
Proof.
  revert b. induction a as [|x a IH]; intros [|y b] H; simpl in H;
    try discriminate H; [reflexivity|].
  injection H as -> H. f_equal. now apply IH.
Qed.

Lemma Forall_tail_from_1 (P : string -> Prop) (l : list string) :
  Forall P l -> Forall P (tail_from_1 l).
Proof. intros H. destruct H; simpl; [constructor | assumption]. Qed.

(** A word followed by clean arguments, each after a space, splits into
    the word and the arguments. *)
Lemma split_joined (args : list string) (word : string) :
  clean_token word -> Forall clean_token args ->
  split (word ++ join_args args) = word :: args.
Proof.
  revert word. induction args as [|a args IH]; intros word [Hne Hw] Hargs.
  - simpl. rewrite append_empty_r. now apply split_word.
  - inversion Hargs as [|? ? Ha Hrest]; subst. simpl.
    rewrite split_at_space by reflexivity.
    rewrite IH by assumption. now rewrite split_word.
Qed.

Lemma substring_prefix (a b : string) :
  substring 0 (String.length a) (a ++ b) = a.
Proof.
  induction a as [|c a IH]; simpl.
  - now destruct b.
  - now rewrite IH.
Qed.

(** The command substring of a text that starts with one character, the
    name and then anything, for an entity that ends with the name. *)
Lemma slice_name (c : ascii) (name rest : string) :
  slice (String c (name ++ rest)) 1 (1 + Z.of_nat (String.length name)) = name.
Proof.
  unfold slice, clamp. simpl String.length.
  rewrite append_length.
  replace (1 <? 0)%Z with false by reflexivity.
  replace (1 + Z.of_nat (String.length name) <? 0)%Z with false
    by (symmetry; apply Z.ltb_ge; lia).
  rewrite Z.min_l by lia. rewrite Z.min_l by lia.
  replace (Z.to_nat 1) with 1 by reflexivity.
  replace (Z.to_nat (1 + Z.of_nat (String.length name) - 1))
    with (String.length name) by lia.
  simpl. apply substring_prefix.
Qed.

Lemma isspace_lower_char (c : ascii) : isspace (lower_char c) = isspace c.
Proof. destruct c as [[] [] [] [] [] [] [] []]; reflexivity. Qed.

Lemma no_space_lower (s : string) : no_space (lower s) = no_space s.
Proof.
  unfold no_space. induction s as [|c s IH]; simpl; [reflexivity|].
  now rewrite isspace_lower_char, IH.
Qed.

(** An accepted result of [PrefixHandler.check_update] is the pair of the
    tokens after the first one and the filter result. *)
Lemma prefix_accepted_result (self : PrefixHandler.t) (u : Update.t)
    (v : value) :
  PrefixHandler.check_update self (AnUpdate u) = Ret v ->
  v <> NoMatch -> v <> Rejected ->
  exists message text tok,
    Update.effective_message u = Some message /\
    Message.text message = Some text /\
    first_token text = Some tok /\
    In (lower tok) (PrefixHandler.command self) /\
    truthy (PrefixHandler.filters self u) = true /\
    v = Matched (tail_from_1 (split text)) (PrefixHandler.filters self u).
Proof.
  intros Hv Hnone Hrej.
  destruct (prefix_check_cases self (AnUpdate u))
    as [H | [H | [u' [args [Hu Hshape]]]]].
  - rewrite H in Hv. discriminate Hv.
  - rewrite H in Hv. injection Hv as <-. now elim Hnone.
  - injection Hu as <-.
    rewrite (prefix_check_on_shape self u args Hshape) in Hv.
    destruct Hshape as [message [text [tok [Hm [Ht [Htok [Hin ->]]]]]]].
    exists message, text, tok.
    destruct (truthy (PrefixHandler.filters self u)).
    + injection Hv as <-. now repeat split.
    + injection Hv as <-. now elim Hrej.
Qed.

(** The same for [CommandHandler.check_update]. *)
Lemma command_accepted_result (self : CommandHandler.t) (u : Update.t)
    (v : value) :
  CommandHandler.check_update self (AnUpdate u) = Ret v ->
  v <> NoMatch -> v <> Rejected ->
  exists message text,
    Update.effective_message u = Some message /\
    Message.text message = Some text /\
    truthy (CommandHandler.filters self u) = true /\
    v = Matched (tail_from_1 (split text)) (CommandHandler.filters self u).
Proof.
  intros Hv Hnone Hrej.
  destruct (command_check_cases self (AnUpdate u))
    as [H | [H | [H | [u' [args [Hu [Hshape H]]]]]]]; rewrite H in Hv.
  - discriminate Hv.
  - discriminate Hv.
  - injection Hv as <-. now elim Hnone.
  - injection Hu as <-. rewrite filter_stage_outcome in Hv.
    destruct Hshape
      as [message [text [e [es [bot
          [Hm [Ht [_ [_ [_ [_ [_ [_ ->]]]]]]]]]]]]].
    exists message, text.
    destruct (truthy (CommandHandler.filters self u)).
    + injection Hv as <-. now repeat split.
    + injection Hv as <-. now elim Hrej.
Qed.

End Tokens.

(** X5.  Whenever [CommandHandler.check_update] or
    [PrefixHandler.check_update] returns a pair, the filter result in it is
    truthy and no arg is empty or holds a white-space character. *)
Theorem args_are_clean_tokens :
  (forall (self : CommandHandler.t) (upd : pyobject) (args : list string)
          (filter_result : value),
      CommandHandler.check_update self upd = Ret (Matched args filter_result) ->
      truthy filter_result = true /\ Forall clean_token args) /\
  (forall (self : PrefixHandler.t) (upd : pyobject) (args : list string)
          (filter_result : value),
      PrefixHandler.check_update self upd = Ret (Matched args filter_result) ->
      truthy filter_result = true /\ Forall clean_token args).
Proof.
  split; intros self upd args fr Hv.
  - destruct upd as [u|]; [|discriminate Hv].
    destruct (command_accepted_result self u _ Hv)
      as [message [text [_ [_ [Htr Heq]]]]]; try discriminate.
    injection Heq as Hargs ->. apply map_PyStr_injective in Hargs as ->.
    split; [assumption|]. apply Forall_tail_from_1, split_tokens.
  - destruct upd as [u|]; [|discriminate Hv].
    destruct (prefix_accepted_result self u _ Hv)
      as [message [text [tok [_ [_ [_ [_ [Htr Heq]]]]]]]]; try discriminate.
    injection Heq as Hargs ->. apply map_PyStr_injective in Hargs as ->.
    split; [assumption|]. apply Forall_tail_from_1, split_tokens.
Qed.

Lemma args_are_clean_tokens_witness :
  Forall clean_token ["hello"%string; "world"%string].
Proof.
  exact (proj2 (proj1 args_are_clean_tokens
                  (Fixtures.start_handler Fixtures.always)
                  (AnUpdate (Fixtures.command_update
                               "/start  hello   world " 6))
                  ["hello"%string; "world"%string] (PyBool true) eq_refl)).
Defined.

(** ** From the text of a command back to its parts *)

Section CommandText.

Local Open Scope string_scope.

(** A text made of one character, the command and the arguments, under an
    entity that covers the character and the command: [check_update] reads
    the command and the arguments back. *)
Lemma command_check_on_built_text (self : CommandHandler.t) (u : Update.t)
    (message : Message.t) (c : ascii) (cmd : string) (args : list string)
    (es : list MessageEntity.t) (bot : Bot.t) :
  Update.effective_message u = Some message ->
  Message.bot message = Some bot ->
  Message.text message = Some (String c (cmd ++ join_args args)) ->
  Message.entities message =
    MessageEntity.mk MessageEntity.BOT_COMMAND 0
      (1 + Z.of_nat (String.length cmd)) :: es ->
  isspace c = false -> no_space cmd = true ->
  Forall clean_token args ->
  CommandHandler.check_update self (AnUpdate u) =
  if str_in (lower (command_name cmd)) (CommandHandler.command self)
     && addresses cmd (Bot.username bot)
  then Ret (if truthy (CommandHandler.filters self u)
            then Matched args (CommandHandler.filters self u)
            else Rejected)
  else Ret NoMatch.
Proof.
  intros Hm Hb Ht He Hc Hcmd Hargs.
  rewrite (command_check_on_entity self u message _ _ es bot Hm Ht He
             eq_refl eq_refl Hb).
  simpl MessageEntity.length. rewrite slice_name.
  change (String c (cmd ++ join_args args))
    with (String c cmd ++ join_args args).
  rewrite split_joined; [|split; [discriminate|] | assumption].
  - simpl tail_from_1. now rewrite filter_stage_outcome.
  - unfold no_space in *. simpl. now rewrite Hc, Hcmd.
Qed.

End CommandText.

(** X6.  Round trip of a command text.  For a message whose text is one
    character that is not white space (the slash), a command name, possibly
    [@] and the bot's username in any case, and then arguments that are
    each preceded by one space, under a bot-command entity that covers the
    text before the arguments: if the name is configured up to case and
    the message carries its bot, [check_update] hands the arguments back,
    unchanged and in order, with the filter result, or [False] when the
    filters do not hold. *)
Theorem command_text_round_trip :
  forall (self : CommandHandler.t) (u : Update.t) (message : Message.t)
         (c : ascii) (name : string) (args : list string)
         (es : list MessageEntity.t) (bot : Bot.t),
    Update.effective_message u = Some message ->
    Message.bot message = Some bot ->
    isspace c = false -> no_space name = true -> no_at_sign name = true ->
    In (lower name) (CommandHandler.command self) ->
    Forall clean_token args ->
    let answer :=
      Ret (if truthy (CommandHandler.filters self u)
           then Matched args (CommandHandler.filters self u)
           else Rejected) in
    (Message.text message = Some (String c (name ++ join_args args)) ->
     Message.entities message =
       MessageEntity.mk MessageEntity.BOT_COMMAND 0
         (1 + Z.of_nat (String.length name)) :: es ->
     CommandHandler.check_update self (AnUpdate u) = answer) /\
    (forall b : string,
        no_space b = true -> no_at_sign b = true ->
        lower b = lower (Bot.username bot) ->
        Message.text message =
          Some (String c ((name ++ String "@" b) ++ join_args args)%string) ->
        Message.entities message =
          MessageEntity.mk MessageEntity.BOT_COMMAND 0
            (1 + Z.of_nat (String.length (name ++ String "@" b)%string))
          :: es ->
        CommandHandler.check_update self (AnUpdate u) = answer).
Proof.
  intros self u message c name args es bot Hm Hbot Hc Hname Hat Hin Hargs
         answer.
  apply str_in_In in Hin. split.
  - intros Ht He.
    rewrite (command_check_on_built_text self u message c name args es bot
               Hm Hbot Ht He Hc Hname Hargs).
    destruct (command_without_at name Hat) as [Hn Hs].
    unfold addresses. now rewrite Hn, Hs, Hin.
  - intros b Hb Hbat Heq Ht He.
    rewrite (command_check_on_built_text self u message c _ args es bot
               Hm Hbot Ht He Hc); [|idtac|assumption].
    + destruct (command_with_at name b EmptyString Hat Hbat
                  (or_introl eq_refl)) as [Hn Hs].
      rewrite append_empty_r in Hn, Hs.
      unfold addresses. rewrite Hn, Hs, Hin, Heq, String.eqb_refl.
      reflexivity.
    + unfold no_space in *. rewrite all_chars_app. simpl.
      now rewrite Hname, Hb.
Qed.

Lemma command_text_round_trip_witness :
  CommandHandler.check_update (Fixtures.start_handler Fixtures.always)
    (AnUpdate (Fixtures.command_update "/Start@BOTNAME one two" 14))
  = Ret (Matched ["one"%string; "two"%string] (PyBool true)).
Proof.
  refine (proj2 (command_text_round_trip
            (Fixtures.start_handler Fixtures.always)
            (Fixtures.command_update "/Start@BOTNAME one two" 14)
            _ "/"%char "Start"%string ["one"%string; "two"%string] [] _
            eq_refl eq_refl eq_refl eq_refl eq_refl _ _)
            "BOTNAME"%string eq_refl eq_refl eq_refl eq_refl eq_refl).
  - simpl. left. reflexivity.
  - repeat constructor; discriminate.
Defined.

(** ** [PrefixHandler]: from construction to recognition *)

Section PrefixEndToEnd.

Local Open Scope string_scope.

Lemma first_token_clean (text tok : string) :
  first_token text = Some tok -> clean_token tok.
Proof.
  rewrite <- hd_split. intros H.
  pose proof (split_tokens text) as Hall.
  destruct (split text) as [|t ts]; [discriminate H|].
  injection H as <-. now inversion Hall.
Qed.

Lemma lower_clean (tok : string) : clean_token tok -> clean_token (lower tok).
Proof.
  intros [Hne Hns]. split.
  - now rewrite lower_is_empty.
  - now rewrite no_space_lower.
Qed.

Lemma list_prod_nil_r (A B : Type) (l : list A) : list_prod l (@nil B) = [].
Proof. induction l as [|x l IH]; simpl; [reflexivity | exact IH]. Qed.

End PrefixEndToEnd.

(** X7.  From construction to recognition.  A handler built by
    [PrefixHandler.__init__] answers a message whose text is a token equal,
    up to case, to a configured prefix followed by a configured command,
    and then arguments that are each preceded by one space: it hands the
    arguments back with the filter result, or [False] when the filters do
    not hold. *)
Theorem prefix_text_round_trip :
  forall (Filters_update_messages : Filter)
         (filter_and : Filter -> Filter -> Filter)
         (prefix command : str_or_list) (callback : Callback)
         (filters : option Filter) (h : PrefixHandler.t)
         (u : Update.t) (message : Message.t)
         (p c tok : string) (args : list string),
    PrefixHandler.init Filters_update_messages filter_and prefix command
      callback filters = Ret h ->
    In p (strings_of prefix) -> In c (strings_of command) ->
    lower tok = (lower p ++ lower c)%string ->
    clean_token tok -> Forall clean_token args ->
    Update.effective_message u = Some message ->
    Message.text message = Some (tok ++ join_args args)%string ->
    PrefixHandler.check_update h (AnUpdate u) =
    Ret (if truthy (PrefixHandler.filters h u)
         then Matched args (PrefixHandler.filters h u)
         else Rejected).
Proof.
  intros msgs fand prefix command callback filters h u message p c tok args
         Hinit Hp Hc Hlow Htok Hargs Hm Ht.
  destruct (prefix_init_returns msgs fand prefix command callback filters)
    as [h' [Hinit' [Hcmd _]]].
  rewrite Hinit in Hinit'. injection Hinit' as <-.
  rewrite (prefix_check_on_text h u message _ Hm Ht).
  assert (Hsplit : split (tok ++ join_args args)%string = tok :: args)
    by now apply split_joined.
  rewrite <- hd_split, Hsplit. simpl hd_error. simpl tail_from_1.
  assert (Hne : truthy_str (tok ++ join_args args)%string = true).
  { destruct Htok as [Hne _]. destruct tok; [now elim Hne | reflexivity]. }
  rewrite Hne.
  assert (Hin : str_in (lower tok) (PrefixHandler.command h) = true).
  { apply str_in_In. rewrite Hcmd. apply in_prefixed_commands.
    now exists p, c. }
  now rewrite Hin.
Qed.

Lemma prefix_text_round_trip_witness :
  PrefixHandler.check_update (Fixtures.test_handler Fixtures.always)
    (AnUpdate (Fixtures.text_update "#TeSt one two"))
  = Ret (Matched ["one"%string; "two"%string] (PyBool true)).
Proof.
  refine (prefix_text_round_trip Fixtures.always Fixtures.both
            (AList ["!"%string; "#"%string]) (AStr "test")
            Fixtures.no_callback None
            (Fixtures.test_handler Fixtures.always)
            (Fixtures.text_update "#TeSt one two") _
            "#"%string "test"%string "#TeSt"%string
            ["one"%string; "two"%string]
            eq_refl _ _ eq_refl _ _ eq_refl eq_refl).
  - simpl. right. left. reflexivity.
  - simpl. left. reflexivity.
  - split; [discriminate | reflexivity].
  - repeat constructor; discriminate.
Defined.

(** X8.  [PrefixHandler.check_update] raises in one situation only: the
    text of the message is not empty and consists of white space alone;
    the error is then an [IndexError]. *)
Theorem prefix_check_raises_iff :
  forall (self : PrefixHandler.t) (upd : pyobject) (err : exn),
    PrefixHandler.check_update self upd = Raise err <->
    err = IndexError /\
    exists u message text,
      upd = AnUpdate u /\
      Update.effective_message u = Some message /\
      Message.text message = Some text /\
      text <> EmptyString /\
      all_chars isspace text = true.
Proof.
  intros self upd err. split.
  - intros Hraise.
    destruct upd as [u|]; [|discriminate Hraise].
    destruct (Update.effective_message u) as [message|] eqn:Hm;
      [|exfalso; revert Hraise; falls_through_in].
    destruct (Message.text message) as [text|] eqn:Ht;
      [|exfalso; revert Hraise; falls_through_in].
    rewrite (prefix_check_on_text self u message text Hm Ht) in Hraise.
    destruct (truthy_str text) eqn:Hne; [|discriminate Hraise].
    destruct (first_token text) as [tok|] eqn:Htok.
    + destruct (str_in _ _); discriminate Hraise.
    + injection Hraise as <-. split; [reflexivity|].
      exists u, message, text. apply truthy_str_iff in Hne.
      apply first_token_none in Htok. now repeat split.
  - intros [-> [u [message [text [-> [Hm [Ht [Hne Hws]]]]]]]].
    now apply (prefix_check_on_blank self u message text).
Qed.

Lemma prefix_check_raises_iff_witness :
  exists u message text,
    AnUpdate (Fixtures.text_update "  ") = AnUpdate u /\
    Update.effective_message u = Some message /\
    Message.text message = Some text /\
    text <> EmptyString /\ all_chars isspace text = true.
Proof.
  exact (proj2 (proj1 (prefix_check_raises_iff
                         (Fixtures.test_handler Fixtures.always)
                         (AnUpdate (Fixtures.text_update "  "))
                         IndexError) eq_refl)).
Defined.

(** A recognised update was matched through a clean entry of the command
    set. *)
Lemma prefix_recognised_entry (self : PrefixHandler.t) (upd : pyobject) :
  recognised (PrefixHandler.check_update self upd) ->
  exists x, In x (PrefixHandler.command self) /\ clean_token x.
Proof.
  intros [v [Hv Hnone]].
  destruct (prefix_check_cases self upd)
    as [H | [H | [u [args [-> Hshape]]]]].
  - rewrite H in Hv. discriminate Hv.
  - rewrite H in Hv. injection Hv as <-. now elim Hnone.
  - destruct Hshape as [message [text [tok [_ [_ [Htok [Hin _]]]]]]].
    exists (lower tok). split; [assumption|].
    apply lower_clean. now apply (first_token_clean text).
Qed.

(** X9.  What [PrefixHandler.check_update] recognises is always an entry of
    the command set that is not empty and holds no white space.  So an
    entry with white space is never matched: a handler built from commands
    that all hold white space, which the constructor accepts, recognises no
    update at all. *)
Theorem prefix_entries_with_space_are_dead :
  (forall (self : PrefixHandler.t) (upd : pyobject),
      recognised (PrefixHandler.check_update self upd) ->
      exists x, In x (PrefixHandler.command self) /\ clean_token x) /\
  (forall (Filters_update_messages : Filter)
          (filter_and : Filter -> Filter -> Filter)
          (prefix command : str_or_list) (callback : Callback)
          (filters : option Filter) (h : PrefixHandler.t),
      PrefixHandler.init Filters_update_messages filter_and prefix command
        callback filters = Ret h ->
      (forall c, In c (strings_of command) -> no_space c = false) ->
      forall upd, ~ recognised (PrefixHandler.check_update h upd)).
Proof.
  split; [exact prefix_recognised_entry|].
  intros msgs fand prefix command callback filters h Hinit Hdead upd Hrec.
  destruct (prefix_init_returns msgs fand prefix command callback filters)
    as [h' [Hinit' [Hcmd _]]].
  rewrite Hinit in Hinit'. injection Hinit' as <-.
  destruct (prefix_recognised_entry h upd Hrec) as [x [Hin [_ Hns]]].
  rewrite Hcmd in Hin. apply in_prefixed_commands in Hin
    as [p [c [_ [Hc ->]]]].
  unfold no_space in Hns. rewrite all_chars_app in Hns.
  apply andb_prop in Hns as [_ Hns].
  fold (no_space (lower c)) in Hns. rewrite no_space_lower in Hns.
  rewrite (Hdead c Hc) in Hns. discriminate Hns.
Qed.

Lemma prefix_entries_with_space_are_dead_witness :
  exists x,
    In x (PrefixHandler.command (Fixtures.test_handler Fixtures.always)) /\
    clean_token x.
Proof.
  apply (proj1 prefix_entries_with_space_are_dead
           (Fixtures.test_handler Fixtures.always)
           (AnUpdate (Fixtures.text_update "!test"))).
  eexists. split; [reflexivity | discriminate].
Defined.

(** X10.  Both constructors accept an empty list: [CommandHandler.__init__]
    an empty list of commands, [PrefixHandler.__init__] an empty list of
    prefixes or of commands.  The handler they return recognises no
    update. *)
Theorem empty_configuration_recognises_nothing :
  forall (Filters_update_messages : Filter)
         (filter_and : Filter -> Filter -> Filter)
         (callback : Callback) (filters : option Filter),
    (exists h,
        CommandHandler.init Filters_update_messages filter_and (AList [])
          callback filters = Ret h /\
        forall upd, ~ recognised (CommandHandler.check_update h upd)) /\
    (forall prefix command : str_or_list,
        strings_of prefix = [] \/ strings_of command = [] ->
        exists h,
          PrefixHandler.init Filters_update_messages filter_and prefix
            command callback filters = Ret h /\
          forall upd, ~ recognised (PrefixHandler.check_update h upd)).
Proof.
  intros msgs fand callback filters. split.
  - eexists. split; [reflexivity|].
    intros upd [v [Hv Hnone]].
    destruct (command_check_cases
                (CommandHandler.mk callback []
                   match filters with
                   | Some f => fand msgs f
                   | None => msgs
                   end) upd)
      as [H | [H | [H | [u [args [_ [Hshape _]]]]]]].
    + simpl in Hv. rewrite H in Hv. discriminate Hv.
    + simpl in Hv. rewrite H in Hv. discriminate Hv.
    + simpl in Hv. rewrite H in Hv. injection Hv as <-. now elim Hnone.
    + destruct Hshape
        as [message [text [e [es [bot
            [_ [_ [_ [_ [_ [_ [Hin _]]]]]]]]]]]].
      exact Hin.
  - intros prefix command Hempty.
    destruct (prefix_init_returns msgs fand prefix command callback filters)
      as [h [Hinit [Hcmd _]]].
    exists h. split; [assumption|].
    intros upd Hrec.
    destruct (prefix_recognised_entry h upd Hrec) as [x [Hin _]].
    rewrite Hcmd in Hin. unfold prefixed_commands in Hin.
    destruct Hempty as [He | He]; rewrite He in Hin;
      [|rewrite list_prod_nil_r in Hin]; exact Hin.
Qed.

Lemma empty_configuration_recognises_nothing_witness :
  exists h,
    PrefixHandler.init Fixtures.always Fixtures.both (AList []) (AStr "test")
      Fixtures.no_callback None = Ret h /\
    forall upd, ~ recognised (PrefixHandler.check_update h upd).
Proof.
  exact (proj2 (empty_configuration_recognises_nothing Fixtures.always
                  Fixtures.both Fixtures.no_callback None)
           (AList []) (AStr "test") (or_introl eq_refl)).
Defined.

(** ** [collect_additional_context] after [check_update] *)

Section Collect.

Local Open Scope string_scope.

(** On a pair whose second component is no dictionary, the args are stored
    and nothing else is changed. *)
Lemma prefix_collect_on_pair (self : PrefixHandler.t)
    (ctx : CallbackContext.t) (u : Update.t) (dispatcher : Dispatcher.t)
    (args : list string) (filter_result : value) :
  (forall d, filter_result <> PyDict d) ->
  PrefixHandler.collect_additional_context self ctx u dispatcher
    (Matched args filter_result)
  = Ret (CallbackContext.set_args ctx (str_list args)).
Proof.
  intros Hd. unfold PrefixHandler.collect_additional_context, Matched. simpl.
  destruct filter_result; try reflexivity. now elim (Hd d).
Qed.

Lemma command_collect_on_pair (self : CommandHandler.t)
    (ctx : CallbackContext.t) (u : Update.t) (dispatcher : Dispatcher.t)
    (args : list string) (filter_result : value) :
  (forall d, filter_result <> PyDict d) ->
  CommandHandler.collect_additional_context self ctx u dispatcher
    (Matched args filter_result)
  = Ret (CallbackContext.set_args ctx (str_list args)).
Proof.
  intros Hd. unfold CommandHandler.collect_additional_context, Matched. simpl.
  destruct filter_result; try reflexivity. now elim (Hd d).
Qed.

(** On any pair a context is returned. *)
Lemma prefix_collect_returns (self : PrefixHandler.t)
    (ctx : CallbackContext.t) (u : Update.t) (dispatcher : Dispatcher.t)
    (args : list string) (filter_result : value) :
  exists ctx',
    PrefixHandler.collect_additional_context self ctx u dispatcher
      (Matched args filter_result) = Ret ctx'.
Proof.
  unfold PrefixHandler.collect_additional_context, Matched. simpl.
  destruct filter_result; eexists; reflexivity.
Qed.

End Collect.

(** X11.  For both command handlers, on a result that [check_update]
    returned, [collect_additional_context] returns a context exactly when
    the result is an acceptance; on [None] and on [False] it raises.  On an
    acceptance whose filter result is no dictionary, the context returned
    is the given one with [args] set to the tokens of the text after the
    first one, and nothing else changed. *)
Theorem collect_after_check :
  (forall (self : PrefixHandler.t) (u : Update.t) (v : value)
          (ctx : CallbackContext.t) (dispatcher : Dispatcher.t),
      PrefixHandler.check_update self (AnUpdate u) = Ret v ->
      ((exists ctx',
           PrefixHandler.collect_additional_context self ctx u dispatcher v
           = Ret ctx') <->
       v <> NoMatch /\ v <> Rejected) /\
      (v <> NoMatch -> v <> Rejected ->
       (forall d, PrefixHandler.filters self u <> PyDict d) ->
       exists message text,
         Update.effective_message u = Some message /\
         Message.text message = Some text /\
         PrefixHandler.collect_additional_context self ctx u dispatcher v
         = Ret (CallbackContext.set_args ctx
                  (str_list (tail_from_1 (split text)))))) /\
  (forall (self : CommandHandler.t) (u : Update.t) (v : value)
          (ctx : CallbackContext.t) (dispatcher : Dispatcher.t),
      CommandHandler.check_update self (AnUpdate u) = Ret v ->
      ((exists ctx',
           CommandHandler.collect_additional_context self ctx u dispatcher v
           = Ret ctx') <->
       v <> NoMatch /\ v <> Rejected) /\
      (v <> NoMatch -> v <> Rejected ->
       (forall d, CommandHandler.filters self u <> PyDict d) ->
       exists message text,
         Update.effective_message u = Some message /\
         Message.text message = Some text /\
         CommandHandler.collect_additional_context self ctx u dispatcher v
         = Ret (CallbackContext.set_args ctx
                  (str_list (tail_from_1 (split text)))))).
Proof.
  split; intros self u v ctx dispatcher Hv; (split; [split|]).
  - intros [ctx' Hc]. split; intros ->; discriminate Hc.
  - intros [Hnone Hrej].
    destruct (prefix_accepted_result self u v Hv Hnone Hrej)
      as [message [text [tok [_ [_ [_ [_ [_ ->]]]]]]]].
    apply prefix_collect_returns.
  - intros Hnone Hrej Hd.
    destruct (prefix_accepted_result self u v Hv Hnone Hrej)
      as [message [text [tok [Hm [Ht [_ [_ [_ ->]]]]]]]].
    exists message, text. repeat (split; [assumption|]).
    now apply prefix_collect_on_pair.
  - intros [ctx' Hc]. split; intros ->; discriminate Hc.
  - intros [Hnone Hrej].
    destruct (command_accepted_result self u v Hv Hnone Hrej)
      as [message [text [_ [_ [_ ->]]]]].
    destruct (collect_sets_args self ctx u dispatcher
                (tail_from_1 (split text)) (CommandHandler.filters self u))
      as [ctx' [H _]].
    now exists ctx'.
  - intros Hnone Hrej Hd.
    destruct (command_accepted_result self u v Hv Hnone Hrej)
      as [message [text [Hm [Ht [_ ->]]]]].
    exists message, text. repeat (split; [assumption|]).
    now apply command_collect_on_pair.
Qed.

Lemma collect_after_check_witness :
  exists message text,
    Update.effective_message (Fixtures.text_update "!test a b")
      = Some message /\
    Message.text message = Some text /\
    PrefixHandler.collect_additional_context
      (Fixtures.test_handler Fixtures.always) CallbackContext.fresh
      (Fixtures.text_update "!test a b") Fixtures.desynced
      (Matched ["a"%string; "b"%string] (PyBool true))
    = Ret (CallbackContext.set_args CallbackContext.fresh
             (str_list (tail_from_1 (split text)))).
Proof.
  refine (proj2 (proj1 collect_after_check
            (Fixtures.test_handler Fixtures.always)
            (Fixtures.text_update "!test a b")
            (Matched ["a"%string; "b"%string] (PyBool true))
            CallbackContext.fresh Fixtures.desynced eq_refl) _ _ _);
    discriminate.
Defined.

(** ** [InlineActionHandler]: the outcomes *)

Section ActionOutcomes.

Variable self : InlineActionHandler.t.
Variable dispatcher : Dispatcher.t.

Lemma action_check_by_token (upd : pyobject) :
  InlineActionHandler.check_update self upd dispatcher =
  match routed_token upd with
  | None => Ret PyNone
  | Some tok =>
      Ret (PyBool (InlineActionHandler.action_eqb
                     (CallbackManager.peek_action
                        (Dispatcher.callback_manager dispatcher) tok)
                     (InlineActionHandler.action_id self)))
  end.
Proof.
  unfold InlineActionHandler.check_update, routed_token.
  destruct upd as [u|]; [|reflexivity].
  destruct (Update.callback_query u) as [cq|]; [|reflexivity].
  destruct (CallbackQuery.data cq) as [tok|]; [|reflexivity].
  now destruct (truthy_str tok).
Qed.

Lemma action_eqb_true (action : option string) (id : string) :
  InlineActionHandler.action_eqb action id = true <-> action = Some id.
Proof.
  destruct action as [a|]; simpl.
  - rewrite String.eqb_eq. split; [now intros -> | now intros [= ->]].
  - split; discriminate.
Qed.

End ActionOutcomes.

(** X12.  [InlineActionHandler.check_update] never raises and has three
    outcomes.  On a callback query with non-empty data it returns a
    boolean: [True] exactly when the registry resolves the data to the
    action of the handler, [False] otherwise, an unknown token included.
    It returns [None] exactly when there is no callback query, or no data,
    or empty data. *)
Theorem action_check_outcomes :
  forall (self : InlineActionHandler.t) (dispatcher : Dispatcher.t)
         (upd : pyobject),
    let peek :=
      CallbackManager.peek_action (Dispatcher.callback_manager dispatcher) in
    let result := InlineActionHandler.check_update self upd dispatcher in
    (result = Ret (PyBool true) <->
     exists tok, routed_token upd = Some tok /\
                 peek tok = Some (InlineActionHandler.action_id self)) /\
    (result = Ret (PyBool false) <->
     exists tok, routed_token upd = Some tok /\
                 peek tok <> Some (InlineActionHandler.action_id self)) /\
    (result = Ret PyNone <-> routed_token upd = None) /\
    (forall err, result <> Raise err).
Proof.
  intros self dispatcher upd peek result. unfold result.
  rewrite action_check_by_token. fold peek.
  destruct (routed_token upd) as [tok|].
  - pose proof (action_eqb_true (peek tok)
                  (InlineActionHandler.action_id self)) as Heq.
    destruct (InlineActionHandler.action_eqb (peek tok)
                (InlineActionHandler.action_id self)).
    + repeat split; try discriminate.
      * intros _. exists tok. split; [reflexivity | now apply Heq].
      * intros [tok' [[= <-] Hne]]. elim Hne. now apply Heq.
    + repeat split; try discriminate.
      * intros [tok' [[= <-] Hp]]. apply Heq in Hp. discriminate Hp.
      * intros _. exists tok. split; [reflexivity|].
        intros Hp. apply Heq in Hp. discriminate Hp.
  - repeat split; try discriminate;
      intros [tok [Htok _]]; discriminate Htok.
Qed.

Lemma action_check_outcomes_witness :
  InlineActionHandler.check_update Fixtures.action_handler
    (AnUpdate (Fixtures.callback_update "expired")) Fixtures.desynced
  = Ret (PyBool false).
Proof.
  apply (proj1 (proj2 (action_check_outcomes Fixtures.action_handler
                         Fixtures.desynced
                         (AnUpdate (Fixtures.callback_update "expired"))))).
  exists "expired"%string. split; [reflexivity | discriminate].
Defined.

(** X13.  [InlineActionHandler.collect_additional_context] returns a
    context exactly when the update has a chat and a callback query and
    the registry holds a record for the id of the chat and the data; the
    context is then the given one with [view_model] set to the payload of
    the record.  In every other case it raises an [AttributeError].  The
    result of [check_update] that it is handed plays no part. *)
Theorem action_collect_outcomes :
  forall (self : InlineActionHandler.t) (dispatcher : Dispatcher.t)
         (ctx : CallbackContext.t) (u : Update.t) (check_result : value),
    let result :=
      InlineActionHandler.collect_additional_context self ctx u dispatcher
        check_result in
    (forall ctx',
        result = Ret ctx' <->
        exists chat cq item,
          Update.effective_chat u = Some chat /\
          Update.callback_query u = Some cq /\
          CallbackManager.lookup_chat_bound_callback
            (Dispatcher.callback_manager dispatcher) (Chat.id chat)
            (CallbackQuery.data cq) = Some item /\
          ctx' = CallbackContext.set_view_model ctx
                   (CallbackManager.model_data item)) /\
    (forall err, result = Raise err -> err = AttributeError) /\
    (forall (other : InlineActionHandler.t) (check_result' : value),
        InlineActionHandler.collect_additional_context other ctx u dispatcher
          check_result' = result).
Proof.
  intros self dispatcher ctx u check_result result. unfold result.
  unfold InlineActionHandler.collect_additional_context.
  split; [|split; [|reflexivity]].
  - intros ctx'. split.
    + intros H.
      destruct (Update.effective_chat u) as [chat|]; [|discriminate H].
      destruct (Update.callback_query u) as [cq|]; [|discriminate H].
      simpl in H.
      destruct (CallbackManager.lookup_chat_bound_callback _ _ _)
        as [item|] eqn:Hl; [|discriminate H].
      injection H as <-. now exists chat, cq, item.
    + intros [chat [cq [item [-> [-> [Hl ->]]]]]]. simpl. now rewrite Hl.
  - intros err H.
    destruct (Update.effective_chat u) as [chat|];
      [|now injection H as <-].
    destruct (Update.callback_query u) as [cq|];
      [|now injection H as <-].
    simpl in H.
    destruct (CallbackManager.lookup_chat_bound_callback _ _ _) as [item|];
      [discriminate H | now injection H as <-].
Qed.

Lemma action_collect_outcomes_witness :
  InlineActionHandler.collect_additional_context Fixtures.action_handler
    CallbackContext.fresh (Fixtures.callback_update "tok123")
    Fixtures.desynced (PyBool true)
  = Raise AttributeError.
Proof.
  destruct (InlineActionHandler.collect_additional_context
              Fixtures.action_handler CallbackContext.fresh
              (Fixtures.callback_update "tok123") Fixtures.desynced
              (PyBool true)) as [ctx'|err] eqn:H.
  - discriminate H.
  - f_equal.
    exact (proj1 (proj2 (action_collect_outcomes Fixtures.action_handler
                           Fixtures.desynced CallbackContext.fresh
                           (Fixtures.callback_update "tok123")
                           (PyBool true))) err H).
Defined.

(** ** [InlineQueryResultCachedVideo.__init__] *)

Section CachedVideo.

Import InlineQueryResultCachedVideo.

Lemma optional_some (v w : value) :
  optional v = Some w <-> w = v /\ truthy v = true.
Proof.
  unfold optional. destruct (truthy v); split.
  - intros [= <-]. now split.
  - intros [-> _]. reflexivity.
  - discriminate.
  - intros [_ H]. discriminate H.
Qed.

Lemma optional_falsy (v : value) : truthy v = false -> optional v = None.
Proof. unfold optional. now intros ->. Qed.

(** Storing, reading back and storing again changes nothing. *)
Lemma optional_argument (v : value) :
  optional (argument (optional v)) = optional v.
Proof. unfold optional. now destruct (truthy v) eqn:H; simpl; rewrite ?H. Qed.

End CachedVideo.

(** X14.  [InlineQueryResultCachedVideo.__init__] stores the file id and
    the title as given, also when they are empty, and each of description,
    caption, reply markup and message content only when it is truthy: an
    attribute that is set holds the argument, which is truthy, and a falsy
    argument, such as an empty caption, gives the same object as [None].
    Building an object again from its own attributes, with [None] for those
    not set, gives the same object. *)
Theorem cached_video_attributes :
  forall (Base : Type) (InlineQueryResult_init : value -> value -> Base)
         (id video_file_id title description caption reply_markup
          input_message_content : value),
    let init := InlineQueryResultCachedVideo.init Base InlineQueryResult_init in
    let o := init id video_file_id title description caption reply_markup
               input_message_content in
    InlineQueryResultCachedVideo.video_file_id o = video_file_id /\
    InlineQueryResultCachedVideo.title o = title /\
    (forall v, InlineQueryResultCachedVideo.description o = Some v <->
               v = description /\ truthy description = true) /\
    (forall v, InlineQueryResultCachedVideo.caption o = Some v <->
               v = caption /\ truthy caption = true) /\
    (forall v, InlineQueryResultCachedVideo.reply_markup o = Some v <->
               v = reply_markup /\ truthy reply_markup = true) /\
    (forall v, InlineQueryResultCachedVideo.input_message_content o = Some v <->
               v = input_message_content /\
               truthy input_message_content = true) /\
    (forall description' caption' : value,
        truthy description = false -> truthy description' = false ->
        truthy caption = false -> truthy caption' = false ->
        init id video_file_id title description' caption' reply_markup
          input_message_content = o) /\
    init id (InlineQueryResultCachedVideo.video_file_id o)
      (InlineQueryResultCachedVideo.title o)
      (InlineQueryResultCachedVideo.argument
         (InlineQueryResultCachedVideo.description o))
      (InlineQueryResultCachedVideo.argument
         (InlineQueryResultCachedVideo.caption o))
      (InlineQueryResultCachedVideo.argument
         (InlineQueryResultCachedVideo.reply_markup o))
      (InlineQueryResultCachedVideo.argument
         (InlineQueryResultCachedVideo.input_message_content o))
    = o.
Proof.
  intros Base binit id vf title d c r i init o. unfold o, init.
  unfold InlineQueryResultCachedVideo.init. simpl.
  split; [reflexivity|]. split; [reflexivity|].
  split; [intros v; apply optional_some|].
  split; [intros v; apply optional_some|].
  split; [intros v; apply optional_some|].
  split; [intros v; apply optional_some|].
  split.
  - intros d' c' Hd Hd' Hc Hc'.
    now rewrite (optional_falsy d Hd), (optional_falsy d' Hd'),
      (optional_falsy c Hc), (optional_falsy c' Hc').
  - now rewrite !optional_argument.
Qed.

Lemma cached_video_attributes_witness :
  InlineQueryResultCachedVideo.init (value * value) pair
    (PyStr "1") (PyStr "file") (PyStr "title") (PyStr "") (PyStr "")
    PyNone PyNone
  = InlineQueryResultCachedVideo.init (value * value) pair
      (PyStr "1") (PyStr "file") (PyStr "title") PyNone PyNone PyNone PyNone.
Proof.
  exact (proj1 (proj2 (proj2 (proj2 (proj2 (proj2 (proj2
           (cached_video_attributes (value * value) pair
              (PyStr "1") (PyStr "file") (PyStr "title") PyNone PyNone
              PyNone PyNone)))))))
           (PyStr "") (PyStr "") eq_refl eq_refl eq_refl eq_refl).
Defined.

(** X15.  Constructing a [CommandHandler] again from the commands that a
    constructed handler holds succeeds and gives the same handler: the
    stored commands are already in lower case and valid. *)
Theorem command_init_again :
  forall (Filters_update_messages : Filter)
         (filter_and : Filter -> Filter -> Filter)
         (command : str_or_list) (callback : Callback)
         (filters : option Filter) (h : CommandHandler.t),
    CommandHandler.init Filters_update_messages filter_and command callback
      filters = Ret h ->
    CommandHandler.init Filters_update_messages filter_and
      (AList (CommandHandler.command h)) callback filters = Ret h.
Proof.
  intros msgs fand command callback filters h Hinit.
  pose proof Hinit as Hret. apply command_init_ret in Hret as [-> _].
  rewrite command_init_unfold in Hinit.
  rewrite command_init_unfold. simpl strings_of.
  assert (Hidem : map lower (map lower (strings_of command))
                  = map lower (strings_of command)).
  { rewrite map_map. apply map_ext. intros s. apply lower_idem. }
  rewrite Hidem.
  destruct (CommandHandler.validate (map lower (strings_of command)))
    as [[]|err]; [reflexivity | discriminate Hinit].
Qed.

Lemma command_init_again_witness :
  CommandHandler.init Fixtures.always Fixtures.both
    (AList (CommandHandler.command (Fixtures.start_handler Fixtures.always)))
    Fixtures.no_callback None
  = Ret (Fixtures.start_handler Fixtures.always).
Proof.
  exact (command_init_again Fixtures.always Fixtures.both (AStr "START")
           Fixtures.no_callback None
           (Fixtures.start_handler Fixtures.always) eq_refl).
Defined.
